(** * no-unnecessary-condition: the conditional necessity analyzer

    A shallow embedding of
    [packages/eslint-plugin/src/rules/no-unnecessary-condition.ts]:
    the truthiness and nullishness predicates over TypeScript type descriptors,
    the per-site classifiers ([checkNode], [checkNodeForNullish], the binary
    comparison, loop, optional-chain and predicate-callback checks), and the
    listener table applied over a syntax tree.

    Type flags are bit masks over [Z], as in the TypeScript compiler API.
    [context.report] is modelled by returning the list of reports in the order
    they are made.  The type checker, the parser services and the token
    stream are collaborators of the rule: they are the fields of a record that
    every classifier takes as a parameter.  The services are asked about a
    node by its syntax; where two occurrences of a node matter, they are
    told apart by their path from the root of the tree. *)

From Stdlib Require Import ZArith List String Bool Lia.
From Stdlib Require Import Floats.SpecFloat.
Import ListNotations.

#[local] Set Warnings "-register-all".
Local Open Scope string_scope.
Local Open Scope list_scope.
Local Open Scope Z_scope.

(** ** TypeScript type descriptors *)

(** [ts.TypeFlags], with the values of the compiler's declaration file. *)
Module TypeFlags.
Definition Any : Z := 1.
Definition Unknown : Z := 2.
Definition String : Z := 4.
Definition Number : Z := 8.
Definition Boolean : Z := 16.
Definition Enum : Z := 32.
Definition BigInt : Z := 64.
Definition StringLiteral : Z := 128.
Definition NumberLiteral : Z := 256.
Definition BooleanLiteral : Z := 512.
Definition EnumLiteral : Z := 1024.
Definition BigIntLiteral : Z := 2048.
Definition ESSymbol : Z := 4096.
Definition UniqueESSymbol : Z := 8192.
Definition Void : Z := 16384.
Definition Undefined : Z := 32768.
Definition Null : Z := 65536.
Definition Never : Z := 131072.
Definition TypeParameter : Z := 262144.
Definition Object : Z := 524288.
Definition Union : Z := 1048576.
Definition Intersection : Z := 2097152.
Definition Index : Z := 4194304.
Definition IndexedAccess : Z := 8388608.
Definition Conditional : Z := 16777216.
Definition Substitution : Z := 33554432.
Definition NonPrimitive : Z := 67108864.
Definition TemplateLiteral : Z := 134217728.
Definition StringMapping : Z := 268435456.

Definition DefinitelyFalsy : Z :=
  Z.lor StringLiteral (Z.lor NumberLiteral (Z.lor BigIntLiteral
    (Z.lor BooleanLiteral (Z.lor Void (Z.lor Undefined Null))))).
Definition PossiblyFalsy : Z :=
  Z.lor DefinitelyFalsy (Z.lor String (Z.lor Number (Z.lor BigInt Boolean))).
Definition TypeVariable : Z := Z.lor TypeParameter IndexedAccess.
End TypeFlags.

(** [ts.SymbolFlags.Optional]. *)
Module SymbolFlags.
Definition Optional : Z := 16777216.
End SymbolFlags.

(** The [value] of a [ts.LiteralType]: [string | number | PseudoBigInt].
    A number is an IEEE 754 double; a bigint literal is carried as the object
    [{ negative, base10Value }]. *)
Inductive LiteralValue : Type :=
| StringValue (s : string)
| NumberValue (n : spec_float)
| PseudoBigInt (negative : bool) (base10Value : string).

(** [ts.Type]: the flags, the constituents of a union or intersection
    ([types]), the value of a literal type and the name of an intrinsic
    type.  [typeId] is the checker's number of the type, which tells apart two
    object types with the same flags. *)
Inductive TsType : Type :=
  MkType { flags : Z;
           types : list TsType;
           value : option LiteralValue;
           intrinsicName : option string;
           typeId : nat }.

(** [ts.Symbol], as far as the rule looks at it. *)
Record TsSymbol : Type := MkSymbol { symbolFlags : Z }.

(** A call signature, reduced to what [getReturnType] answers. *)
Record Signature : Type := MkSignature { getReturnType : TsType }.

(** An index signature of an object type, reduced to its key type. *)
Record IndexInfo : Type := MkIndexInfo { keyType : TsType }.

(** JavaScript's [ToBoolean] on a literal value, the [!!type.value] of the
    source: the empty string, the zeros and NaN are falsy, every object is
    truthy. *)
Definition toBoolean (v : LiteralValue) : bool :=
  match v with
  | StringValue s => negb (String.eqb s "")
  | NumberValue (S754_zero _) => false
  | NumberValue S754_nan => false
  | NumberValue _ => true
  | PseudoBigInt _ _ => true
  end.

(** The truthiness of the value a literal type denotes at run time: as
    [toBoolean], but a bigint literal denotes a bigint, and [0n] is falsy. *)
Definition runtimeValueIsTruthy (v : LiteralValue) : bool :=
  match v with
  | PseudoBigInt _ digits => negb (String.eqb digits "0")
  | _ => toBoolean v
  end.

(** [(flags & mask) !== 0] *)
Definition hasFlags (fl mask : Z) : bool := negb (Z.land fl mask =? 0).

(** *** Methods of [ts.Type] *)

Definition isUnion (t : TsType) : bool := hasFlags (flags t) TypeFlags.Union.
Definition isIntersection (t : TsType) : bool :=
  hasFlags (flags t) TypeFlags.Intersection.
Definition isLiteral_method (t : TsType) : bool :=
  hasFlags (flags t)
    (Z.lor TypeFlags.StringLiteral
       (Z.lor TypeFlags.NumberLiteral TypeFlags.BigIntLiteral)).
Definition isStringLiteral (t : TsType) : bool :=
  hasFlags (flags t) TypeFlags.StringLiteral.
Definition isNumberLiteral (t : TsType) : bool :=
  hasFlags (flags t) TypeFlags.NumberLiteral.

(** [!!type.value]; a literal type always has a value, a missing one is
    [undefined] and falsy. *)
Definition valueIsTruthy (t : TsType) : bool :=
  match value t with
  | Some v => toBoolean v
  | None => false
  end.

(** *** ts-api-utils *)

Module tsutils.
Definition isTypeFlagSet (t : TsType) (flag : Z) : bool :=
  hasFlags (flags t) flag.

Definition unionTypeParts (t : TsType) : list TsType :=
  if isUnion t then types t else [t].

Definition intersectionTypeParts (t : TsType) : list TsType :=
  if isIntersection t then types t else [t].

Definition isBooleanLiteralType (t : TsType) : bool :=
  isTypeFlagSet t TypeFlags.BooleanLiteral.

Definition intrinsicNameIs (t : TsType) (name : string) : bool :=
  match intrinsicName t with
  | Some n => String.eqb n name
  | None => false
  end.

Definition isTrueLiteralType (t : TsType) : bool :=
  isBooleanLiteralType t && intrinsicNameIs t "true".

Definition isFalseLiteralType (t : TsType) : bool :=
  isBooleanLiteralType t && intrinsicNameIs t "false".

Definition isFalsyType (t : TsType) : bool :=
  if isTypeFlagSet t
       (Z.lor TypeFlags.Undefined (Z.lor TypeFlags.Null TypeFlags.Void))
  then true
  else if isLiteral_method t then negb (valueIsTruthy t)
  else isFalseLiteralType t.

Definition isSymbolFlagSet (s : TsSymbol) (flag : Z) : bool :=
  hasFlags (symbolFlags s) flag.
End tsutils.

(** *** Helpers of [../util] *)

(** Modelled from the spec: [getTypeFlags] of [../util] is not among the
    sources.  The flags a type carries are those of the members of its union
    decomposition (the invariant on union decompositions, and "the type
    carries" of the nullish classifier). *)
Definition getTypeFlags (t : TsType) : Z :=
  fold_left (fun acc part => Z.lor acc (flags part)) (tsutils.unionTypeParts t) 0.

(** Modelled from the spec: [isTypeFlagSet] of [../util] is not among the
    sources.  The flag membership test of the data model, against the flags
    the type carries. *)
Definition isTypeFlagSet (t : TsType) (flagsToCheck : Z) : bool :=
  hasFlags (getTypeFlags t) flagsToCheck.

(** Modelled from the spec: [isTypeAnyType] of [../util] is not among the
    sources.  Membership of the Any flag. *)
Definition isTypeAnyType (t : TsType) : bool := isTypeFlagSet t TypeFlags.Any.

(** Modelled from the spec: [isTypeUnknownType] of [../util] is not among the
    sources.  Membership of the Unknown flag. *)
Definition isTypeUnknownType (t : TsType) : bool :=
  isTypeFlagSet t TypeFlags.Unknown.

(** Modelled from the spec: [isNullableType] of [../util] is not among the
    sources.  Nullable is "null or undefined" (the glossary's nullish) on the
    type taken as a whole; the rule only ever asks with undefined allowed. *)
Definition isNullableType (t : TsType) : bool :=
  isTypeFlagSet t (Z.lor TypeFlags.Null TypeFlags.Undefined).

(** ** Truthiness utilities *)

Definition isTruthyLiteral (t : TsType) : bool :=
  tsutils.isTrueLiteralType t || (isLiteral_method t && valueIsTruthy t).

Definition isPossiblyFalsy (t : TsType) : bool :=
  existsb (fun t' => isTypeFlagSet t' TypeFlags.PossiblyFalsy)
    (filter (fun t' => negb (isTruthyLiteral t'))
       (flat_map (fun t' => tsutils.intersectionTypeParts t')
          (tsutils.unionTypeParts t))).

Definition isPossiblyTruthy (t : TsType) : bool :=
  existsb (fun intersectionParts =>
             forallb (fun t' => negb (tsutils.isFalsyType t')) intersectionParts)
    (map (fun t' => tsutils.intersectionTypeParts t') (tsutils.unionTypeParts t)).

(** ** Nullish utilities *)

Definition nullishFlag : Z := Z.lor TypeFlags.Undefined TypeFlags.Null.

Definition isNullishType (t : TsType) : bool := isTypeFlagSet t nullishFlag.

Definition isPossiblyNullish (t : TsType) : bool :=
  existsb isNullishType (tsutils.unionTypeParts t).

Definition isAlwaysNullish (t : TsType) : bool :=
  forallb isNullishType (tsutils.unionTypeParts t).

(** [isLiteralType] only covers numbers and strings, this is a more
    exhaustive check. *)
Definition isLiteral (t : TsType) : bool :=
  tsutils.isBooleanLiteralType t
  || (flags t =? TypeFlags.Undefined)
  || (flags t =? TypeFlags.Null)
  || (flags t =? TypeFlags.Void)
  || isLiteral_method t.

(** ** Syntax trees *)

(** The expressions and statements of the ESTree the rule looks at.  The
    operators are the strings of the source text. *)
Inductive Expression : Type :=
| Identifier (name : string)
| Literal (raw : string)
| UnaryExpression (operator : string) (argument : Expression)
| LogicalExpression (operator : string) (left right : Expression)
| BinaryExpression (operator : string) (left right : Expression)
| ConditionalExpression (test consequent alternate : Expression)
| AssignmentExpression (operator : string) (left right : Expression)
| MemberExpression (object property : Expression) (computed optional : bool)
| CallExpression (callee : Expression) (arguments : list Expression)
    (optional : bool)
| ChainExpression (expression : Expression)
| TSNonNullExpression (expression : Expression)
| ArrowFunctionExpression (body : ArrowBody)
| FunctionExpression (body : list Statement)
with ArrowBody : Type :=
| ExpressionBody (expression : Expression)
| BlockBody (body : list Statement)
with Statement : Type :=
| ExpressionStatement (expression : Expression)
| ReturnStatement (argument : option Expression)
| BlockStatement (body : list Statement)
| IfStatement (test : Expression) (consequent : Statement)
    (alternate : option Statement)
| WhileStatement (test : Expression) (body : Statement)
| DoWhileStatement (body : Statement) (test : Expression)
| ForStatement (init test update : option Expression) (body : Statement).

Module AST_NODE_TYPES.
Inductive t : Type :=
| Identifier | Literal | UnaryExpression | LogicalExpression
| BinaryExpression | ConditionalExpression | AssignmentExpression
| MemberExpression | CallExpression | ChainExpression
| TSNonNullExpression | ArrowFunctionExpression | FunctionExpression.

Definition eqb (a b : t) : bool :=
  match a, b with
  | Identifier, Identifier | Literal, Literal
  | UnaryExpression, UnaryExpression
  | LogicalExpression, LogicalExpression
  | BinaryExpression, BinaryExpression
  | ConditionalExpression, ConditionalExpression
  | AssignmentExpression, AssignmentExpression
  | MemberExpression, MemberExpression
  | CallExpression, CallExpression
  | ChainExpression, ChainExpression
  | TSNonNullExpression, TSNonNullExpression
  | ArrowFunctionExpression, ArrowFunctionExpression
  | FunctionExpression, FunctionExpression => true
  | _, _ => false
  end.
End AST_NODE_TYPES.

(** [node.type] *)
Definition nodeType (node : Expression) : AST_NODE_TYPES.t :=
  match node with
  | Identifier _ => AST_NODE_TYPES.Identifier
  | Literal _ => AST_NODE_TYPES.Literal
  | UnaryExpression _ _ => AST_NODE_TYPES.UnaryExpression
  | LogicalExpression _ _ _ => AST_NODE_TYPES.LogicalExpression
  | BinaryExpression _ _ _ => AST_NODE_TYPES.BinaryExpression
  | ConditionalExpression _ _ _ => AST_NODE_TYPES.ConditionalExpression
  | AssignmentExpression _ _ _ => AST_NODE_TYPES.AssignmentExpression
  | MemberExpression _ _ _ _ => AST_NODE_TYPES.MemberExpression
  | CallExpression _ _ _ => AST_NODE_TYPES.CallExpression
  | ChainExpression _ => AST_NODE_TYPES.ChainExpression
  | TSNonNullExpression _ => AST_NODE_TYPES.TSNonNullExpression
  | ArrowFunctionExpression _ => AST_NODE_TYPES.ArrowFunctionExpression
  | FunctionExpression _ => AST_NODE_TYPES.FunctionExpression
  end.

(** A property of the child an optional field holds, if any. *)
Definition onOption {A : Type} (S : A -> Prop) (child : option A) : Prop :=
  match child with
  | Some a => S a
  | None => True
  end.

(** Induction over a tree, through the lists and options of children. *)
Section TreeInduction.
Variables (P : Expression -> Prop) (Q : ArrowBody -> Prop)
  (R : Statement -> Prop).

Hypothesis HIdentifier : forall name, P (Identifier name).
Hypothesis HLiteral : forall raw, P (Literal raw).
Hypothesis HUnary : forall operator argument,
    P argument -> P (UnaryExpression operator argument).
Hypothesis HLogical : forall operator left_ right_,
    P left_ -> P right_ -> P (LogicalExpression operator left_ right_).
Hypothesis HBinary : forall operator left_ right_,
    P left_ -> P right_ -> P (BinaryExpression operator left_ right_).
Hypothesis HConditional : forall test consequent alternate,
    P test -> P consequent -> P alternate ->
    P (ConditionalExpression test consequent alternate).
Hypothesis HAssignment : forall operator left_ right_,
    P left_ -> P right_ -> P (AssignmentExpression operator left_ right_).
Hypothesis HMember : forall object property computed optional,
    P object -> P property ->
    P (MemberExpression object property computed optional).
Hypothesis HCall : forall callee arguments optional,
    P callee -> Forall P arguments ->
    P (CallExpression callee arguments optional).
Hypothesis HChain : forall expression,
    P expression -> P (ChainExpression expression).
Hypothesis HNonNull : forall expression,
    P expression -> P (TSNonNullExpression expression).
Hypothesis HArrow : forall body, Q body -> P (ArrowFunctionExpression body).
Hypothesis HFunction : forall body,
    Forall R body -> P (FunctionExpression body).
Hypothesis HExpressionBody : forall expression,
    P expression -> Q (ExpressionBody expression).
Hypothesis HBlockBody : forall body, Forall R body -> Q (BlockBody body).
Hypothesis HExpressionStatement : forall expression,
    P expression -> R (ExpressionStatement expression).
Hypothesis HReturn : forall argument,
    onOption P argument -> R (ReturnStatement argument).
Hypothesis HBlock : forall body, Forall R body -> R (BlockStatement body).
Hypothesis HIf : forall test consequent alternate,
    P test -> R consequent -> onOption R alternate ->
    R (IfStatement test consequent alternate).
Hypothesis HWhile : forall test body,
    P test -> R body -> R (WhileStatement test body).
Hypothesis HDoWhile : forall body test,
    R body -> P test -> R (DoWhileStatement body test).
Hypothesis HFor : forall init test update body,
    onOption P init -> onOption P test -> onOption P update -> R body ->
    R (ForStatement init test update body).

Fixpoint Expression_tree_ind (e : Expression) {struct e} : P e :=
  match e with
  | Identifier name => HIdentifier name
  | Literal raw => HLiteral raw
  | UnaryExpression operator argument =>
      HUnary operator argument (Expression_tree_ind argument)
  | LogicalExpression operator l r =>
      HLogical operator l r (Expression_tree_ind l) (Expression_tree_ind r)
  | BinaryExpression operator l r =>
      HBinary operator l r (Expression_tree_ind l) (Expression_tree_ind r)
  | ConditionalExpression t c a =>
      HConditional t c a (Expression_tree_ind t) (Expression_tree_ind c)
        (Expression_tree_ind a)
  | AssignmentExpression operator l r =>
      HAssignment operator l r (Expression_tree_ind l) (Expression_tree_ind r)
  | MemberExpression o p computed optional =>
      HMember o p computed optional (Expression_tree_ind o)
        (Expression_tree_ind p)
  | CallExpression callee arguments optional =>
      HCall callee arguments optional (Expression_tree_ind callee)
        ((fix go (l : list Expression) : Forall P l :=
            match l with
            | [] => Forall_nil P
            | a :: l' => Forall_cons a (Expression_tree_ind a) (go l')
            end) arguments)
  | ChainExpression expression =>
      HChain expression (Expression_tree_ind expression)
  | TSNonNullExpression expression =>
      HNonNull expression (Expression_tree_ind expression)
  | ArrowFunctionExpression body => HArrow body (ArrowBody_tree_ind body)
  | FunctionExpression body =>
      HFunction body
        ((fix go (l : list Statement) : Forall R l :=
            match l with
            | [] => Forall_nil R
            | s :: l' => Forall_cons s (Statement_tree_ind s) (go l')
            end) body)
  end
with ArrowBody_tree_ind (b : ArrowBody) {struct b} : Q b :=
  match b with
  | ExpressionBody expression =>
      HExpressionBody expression (Expression_tree_ind expression)
  | BlockBody body =>
      HBlockBody body
        ((fix go (l : list Statement) : Forall R l :=
            match l with
            | [] => Forall_nil R
            | s :: l' => Forall_cons s (Statement_tree_ind s) (go l')
            end) body)
  end
with Statement_tree_ind (s : Statement) {struct s} : R s :=
  match s with
  | ExpressionStatement expression =>
      HExpressionStatement expression (Expression_tree_ind expression)
  | ReturnStatement argument =>
      HReturn argument
        (match argument return onOption P argument with
         | Some a => Expression_tree_ind a
         | None => I
         end)
  | BlockStatement body =>
      HBlock body
        ((fix go (l : list Statement) : Forall R l :=
            match l with
            | [] => Forall_nil R
            | s' :: l' => Forall_cons s' (Statement_tree_ind s') (go l')
            end) body)
  | IfStatement test consequent alternate =>
      HIf test consequent alternate (Expression_tree_ind test)
        (Statement_tree_ind consequent)
        (match alternate return onOption R alternate with
         | Some a => Statement_tree_ind a
         | None => I
         end)
  | WhileStatement test body =>
      HWhile test body (Expression_tree_ind test) (Statement_tree_ind body)
  | DoWhileStatement body test =>
      HDoWhile body test (Statement_tree_ind body) (Expression_tree_ind test)
  | ForStatement init test update body =>
      HFor init test update body
        (match init return onOption P init with
         | Some a => Expression_tree_ind a
         | None => I
         end)
        (match test return onOption P test with
         | Some a => Expression_tree_ind a
         | None => I
         end)
        (match update return onOption P update with
         | Some a => Expression_tree_ind a
         | None => I
         end)
        (Statement_tree_ind body)
  end.
End TreeInduction.

(** [isIdentifier] of [../util]: a test of [node.type]. *)
Definition isIdentifier (node : Expression) : bool :=
  AST_NODE_TYPES.eqb (nodeType node) AST_NODE_TYPES.Identifier.

(** ** Reports *)

Inductive MessageId : Type :=
| alwaysFalsy | alwaysFalsyFunc | alwaysNullish | alwaysTruthy
| alwaysTruthyFunc | literalBooleanExpression | never | neverNullish
| neverOptionalChain | noOverlapBooleanExpression | noStrictNullCheck.

(** A source range, in character offsets. *)
Record SourceLocation : Type := MkLoc { locStart : nat; locEnd : nat }.

Inductive AST_TOKEN_TYPES : Type := Punctuator | OtherToken.

Record Token : Type :=
  MkToken { tokenType : AST_TOKEN_TYPES; tokenValue : string;
            tokenLoc : SourceLocation }.

(** The text edit of a fixer: [fixer.replaceText(token, text)]. *)
Record Fix : Type := MkFix { fixTarget : Token; fixText : string }.

(** The descriptor handed to [context.report]. *)
Record Report : Type :=
  MkReport { node : option Expression;
             loc : option SourceLocation;
             messageId : MessageId;
             fix_ : option Fix }.

(** [context.report({ node, messageId })] *)
Definition report (n : Expression) (m : MessageId) : Report :=
  MkReport (Some n) None m None.

(** What running a listener gives: the reports made, or the exception of
    [nullThrows]. *)
Inductive Outcome : Type :=
| Reported (reports : list Report)
| Thrown (reason : string).

(** ** The collaborators of the rule *)

Record TypeChecker : Type :=
  { isArrayType : TsType -> bool;
    isTupleType : TsType -> bool;
    (** [type.getProperty(name)] *)
    getProperty : TsType -> string -> option TsSymbol;
    (** [type.getCallSignatures()] *)
    getCallSignatures : TsType -> list Signature;
    (** [tsutils.getCallSignaturesOfType(type)] *)
    getCallSignaturesOfType : TsType -> list Signature;
    getIndexInfosOfType : TsType -> list IndexInfo;
    (** [checker.getIndexInfoOfType(type, ts.IndexKind.String)] *)
    getStringIndexInfoOfType : TsType -> option IndexInfo;
    (** [getTypeOfPropertyOfName(checker, type, name)] of [../util] *)
    getTypeOfPropertyOfName : TsType -> string -> option TsType;
    (** [getTypeName(checker, type)] of [../util] *)
    getTypeName : TsType -> string;
    (** [Number.prototype.toString] *)
    numberToString : spec_float -> string }.

Record ParserServices : Type :=
  { getTypeAtLocation : Expression -> TsType;
    (** [getConstrainedTypeAtLocation(services, node)] of [../util] *)
    getConstrainedTypeAtLocation : Expression -> TsType }.

(** [context.sourceCode], as the tokens that follow a node. *)
Record SourceCode : Type :=
  { tokensAfter : Expression -> list Token }.

Record Options : Type :=
  { allowConstantLoopConditions : bool;
    allowRuleToRunWithoutStrictNullChecksIKnowWhatIAmDoing : bool }.

(** What [create] closes over. *)
Record RuleContext : Type :=
  { services : ParserServices;
    checker : TypeChecker;
    sourceCode : SourceCode;
    options : Options;
    (** [tsutils.isStrictCompilerOptionEnabled(compilerOptions,
        'strictNullChecks')] *)
    isStrictNullChecks : bool }.

(** ** The rule *)

(** The type the rule resolves for a node:
    [getConstrainedTypeAtLocation(services, node)]. *)
Definition typeAt (ctx : RuleContext) (node : Expression) : TsType :=
  getConstrainedTypeAtLocation (services ctx) node.

Section Rule.
Variable ctx : RuleContext.

(** The preflight of [create]: the advisory report made once when the rule
    runs without strict null checks. *)
Definition create_preflight : list Report :=
  if negb (isStrictNullChecks ctx)
     && negb (allowRuleToRunWithoutStrictNullChecksIKnowWhatIAmDoing
                (options ctx))
  then [MkReport None (Some (MkLoc 0 0)) noStrictNullCheck None]
  else [].

Definition nodeIsArrayType (node : Expression) : bool :=
  isArrayType (checker ctx) (typeAt ctx node).

Definition nodeIsTupleType (node : Expression) : bool :=
  isTupleType (checker ctx) (typeAt ctx node).

Definition isArrayIndexExpression (node : Expression) : bool :=
  match node with
  | MemberExpression object property computed _ =>
      (* Is an index signature *)
      computed
      (* ...into an array type *)
      && (nodeIsArrayType object
          (* ... or a tuple type *)
          || (nodeIsTupleType object
              (* Exception: literal index into a tuple *)
              && negb (AST_NODE_TYPES.eqb (nodeType property)
                         AST_NODE_TYPES.Literal)))
  | _ => false
  end.

(** [propertyType.value.toString()]; it is only asked of a string or number
    literal type, which has a value. *)
Definition valueToString (t : TsType) : string :=
  match value t with
  | Some (StringValue s) => s
  | Some (NumberValue n) => numberToString (checker ctx) n
  | Some (PseudoBigInt _ _) => "[object Object]"
  | None => ""
  end.

Fixpoint isNullablePropertyType (objType propertyType : TsType)
  {struct propertyType} : bool :=
  match propertyType with
  | MkType _ members _ _ _ =>
      if isUnion propertyType then
        existsb (fun type => isNullablePropertyType objType type) members
      else
        let viaIndexInfo :=
          let typeName := getTypeName (checker ctx) propertyType in
          match find (fun info =>
                        String.eqb (getTypeName (checker ctx) (keyType info))
                          typeName)
                  (getIndexInfosOfType (checker ctx) objType) with
          | Some _ => true
          | None => false
          end in
        if isNumberLiteral propertyType || isStringLiteral propertyType then
          match getTypeOfPropertyOfName (checker ctx) objType
                  (valueToString propertyType) with
          | Some propType => isNullableType propType
          | None => viaIndexInfo
          end
        else viaIndexInfo
  end.

(** The source takes a [MemberExpression]; on any other node the model
    answers [false], and no caller asks. *)
Definition isNullableMemberExpression (node : Expression) : bool :=
  match node with
  | MemberExpression object property computed _ =>
      let objectType := getTypeAtLocation (services ctx) object in
      if computed then
        let propertyType := getTypeAtLocation (services ctx) property in
        isNullablePropertyType objectType propertyType
      else
        match property with
        | Identifier name =>
            match getProperty (checker ctx) objectType name with
            | Some propertyType =>
                tsutils.isSymbolFlagSet propertyType SymbolFlags.Optional
            | None => false
            end
        | _ => false
        end
  | _ => false
  end.

(** Any, Unknown or a naked type variable among the union parts. *)
Definition involvesAnyUnknownOrTypeVariable (type : TsType) : bool :=
  existsb (fun part =>
             isTypeAnyType part
             || isTypeUnknownType part
             || isTypeFlagSet part TypeFlags.TypeVariable)
    (tsutils.unionTypeParts type).

(** The tail of [checkNode], from the resolution of the type of the node
    to the report. *)
Definition checkNode_report (node : Expression) (isUnaryNotArgument : bool)
  : list Report :=
  let type := typeAt ctx node in
  (* Conditional is always necessary if it involves:
     `any` or `unknown` or a naked type variable *)
  if involvesAnyUnknownOrTypeVariable type then []
  else
    let messageId : option MessageId :=
      if isTypeFlagSet type TypeFlags.Never then Some never
      else if negb (isPossiblyTruthy type) then
        Some (if negb isUnaryNotArgument then alwaysFalsy else alwaysTruthy)
      else if negb (isPossiblyFalsy type) then
        Some (if negb isUnaryNotArgument then alwaysTruthy else alwaysFalsy)
      else None in
    match messageId with
    | Some m => [report node m]
    | None => []
    end.

(** Checks if a conditional node is necessary: if the type of the node is
    always true or always false, it's not necessary. *)
Fixpoint checkNode (node : Expression) (isUnaryNotArgument : bool)
  {struct node} : list Report :=
  match node with
  | UnaryExpression operator argument =>
      (* Check if the node is Unary Negation expression and handle it *)
      if String.eqb operator "!" then checkNode argument true
      else if isArrayIndexExpression node then []
      else checkNode_report node isUnaryNotArgument
  | LogicalExpression operator _ right_ =>
      if isArrayIndexExpression node then []
      (* When checking logical expressions, only check the right side *)
      else if negb (String.eqb operator "??") then checkNode right_ false
      else checkNode_report node isUnaryNotArgument
  | _ =>
      (* if we're indexing into an array just skip the check *)
      if isArrayIndexExpression node then []
      else checkNode_report node isUnaryNotArgument
  end.

Definition isMemberOrCall (node : Expression) : bool :=
  AST_NODE_TYPES.eqb (nodeType node) AST_NODE_TYPES.MemberExpression
  || AST_NODE_TYPES.eqb (nodeType node) AST_NODE_TYPES.CallExpression.

(** Recursively searches an optional chain for an array index expression.
    The source takes a call or member expression; on any other node the
    model answers [false]. *)
Fixpoint optionChainContainsOptionArrayIndex (node : Expression) : bool :=
  let search (lhsNode : Expression) (optional rest : bool) : bool :=
    if optional && isArrayIndexExpression lhsNode then true
    else if isMemberOrCall lhsNode then rest
    else false in
  match node with
  | CallExpression callee _ optional =>
      search callee optional (optionChainContainsOptionArrayIndex callee)
  | MemberExpression object _ _ optional =>
      search object optional (optionChainContainsOptionArrayIndex object)
  | _ => false
  end.

Definition checkNodeForNullish (node : Expression) : list Report :=
  let type := typeAt ctx node in
  (* Conditional is always necessary if it involves `any`, `unknown` or a
     naked type parameter *)
  if isTypeFlagSet type
       (Z.lor TypeFlags.Any
          (Z.lor TypeFlags.Unknown
             (Z.lor TypeFlags.TypeParameter TypeFlags.TypeVariable)))
  then []
  else
    let messageId : option MessageId :=
      if isTypeFlagSet type TypeFlags.Never then Some never
      else if negb (isPossiblyNullish type)
              && negb (AST_NODE_TYPES.eqb (nodeType node)
                         AST_NODE_TYPES.MemberExpression
                       && isNullableMemberExpression node)
      then
        if negb (isArrayIndexExpression node)
           && negb (match node with
                    | ChainExpression expression =>
                        negb (AST_NODE_TYPES.eqb (nodeType expression)
                                AST_NODE_TYPES.TSNonNullExpression)
                        && optionChainContainsOptionArrayIndex expression
                    | _ => false
                    end)
        then Some neverNullish
        else None
      else if isAlwaysNullish type then Some alwaysNullish
      else None in
    match messageId with
    | Some m => [report node m]
    | None => []
    end.

(** The operators of [BOOL_OPERATORS]. *)
Definition BOOL_OPERATORS : list string :=
  ["<"; ">"; "<="; ">="; "=="; "==="; "!="; "!=="].

Definition BOOL_OPERATORS_has (operator : string) : bool :=
  existsb (String.eqb operator) BOOL_OPERATORS.

(** The local [isComparable] of the binary check: [flag] is widened by the
    escape-hatch flags, and by the nullish ones under a loose operator. *)
Definition isComparable (operator : string) (type : TsType) (flag : Z)
  : bool :=
  (* Allow comparison to `any`, `unknown` or a naked type parameter. *)
  let flag :=
    Z.lor flag
      (Z.lor TypeFlags.Any
         (Z.lor TypeFlags.Unknown
            (Z.lor TypeFlags.TypeParameter TypeFlags.TypeVariable))) in
  (* Allow loose comparison to nullish values. *)
  let flag :=
    if String.eqb operator "==" || String.eqb operator "!=" then
      Z.lor flag
        (Z.lor TypeFlags.Null (Z.lor TypeFlags.Undefined TypeFlags.Void))
    else flag in
  isTypeFlagSet type flag.

(** Checks that a binary expression is necessarily conditional, reports
    otherwise.  The source takes a [BinaryExpression]. *)
Definition checkIfBinaryExpressionIsNecessaryConditional
  (node : Expression) : list Report :=
  match node with
  | BinaryExpression operator left_ right_ =>
      if negb (BOOL_OPERATORS_has operator) then []
      else
        let leftType := typeAt ctx left_ in
        let rightType := typeAt ctx right_ in
        if isLiteral leftType && isLiteral rightType then
          [report node literalBooleanExpression]
        else if isStrictNullChecks ctx then
          let UNDEFINED := TypeFlags.Undefined in
          let NULL := TypeFlags.Null in
          let VOID := TypeFlags.Void in
          if ((flags leftType =? UNDEFINED)
              && negb (isComparable operator rightType (Z.lor UNDEFINED VOID)))
             || ((flags rightType =? UNDEFINED)
                 && negb (isComparable operator leftType
                            (Z.lor UNDEFINED VOID)))
             || ((flags leftType =? NULL)
                 && negb (isComparable operator rightType NULL))
             || ((flags rightType =? NULL)
                 && negb (isComparable operator leftType NULL))
          then [report node noOverlapBooleanExpression]
          else []
        else []
  | _ => []
  end.

(** Checks that a logical expression contains a boolean, reports
    otherwise.  The source takes a [LogicalExpression]. *)
Definition checkLogicalExpressionForUnnecessaryConditionals
  (node : Expression) : list Report :=
  match node with
  | LogicalExpression operator left_ _ =>
      if String.eqb operator "??" then checkNodeForNullish left_
      (* Only checks the left side, since the right side might not be
         "conditional" at all. *)
      else checkNode left_ false
  | _ => []
  end.

(** [node.test] of a loop statement. *)
Definition loopTest (node : Statement) : option Expression :=
  match node with
  | WhileStatement test _ => Some test
  | DoWhileStatement _ test => Some test
  | ForStatement _ test _ _ => test
  | _ => None
  end.

(** Checks that a testable expression of a loop is necessarily
    conditional, reports otherwise. *)
Definition checkIfLoopIsNecessaryConditional (node : Statement)
  : list Report :=
  match loopTest node with
  | None => (* e.g. `for(;;)` *) []
  | Some test =>
      if allowConstantLoopConditions (options ctx)
         && tsutils.isTrueLiteralType (typeAt ctx test)
      then []
      else checkNode test false
  end.

Definition ARRAY_PREDICATE_FUNCTIONS : list string :=
  ["filter"; "find"; "some"; "every"].

Definition isArrayPredicateFunction (node : Expression) : bool :=
  match node with
  | CallExpression (MemberExpression object (Identifier name) _ _) _ _ =>
      (* looks like `something.filter` or `something.find` *)
      existsb (String.eqb name) ARRAY_PREDICATE_FUNCTIONS
      (* and the left-hand side is an array, according to the types *)
      && (nodeIsArrayType object || nodeIsTupleType object)
  | _ => false
  end.

(** The body of an inline callback that [checkCallExpression] hands to
    [checkNode]: the expression body of an arrow function, or the argument
    of the single return statement of a block. *)
Definition singleReturnArgument (callbackBody : list Statement)
  : option Expression :=
  match callbackBody with
  | [ReturnStatement (Some argument)] => Some argument
  | _ => None
  end.

Definition inlineCallbackCondition (callback : Expression)
  : option Expression :=
  match callback with
  | ArrowFunctionExpression (ExpressionBody body) => Some body
  | ArrowFunctionExpression (BlockBody callbackBody) =>
      singleReturnArgument callbackBody
  | FunctionExpression callbackBody => singleReturnArgument callbackBody
  | _ => None
  end.

Definition checkCallExpression (node : Expression) : list Report :=
  match node with
  | CallExpression _ (callback :: _) _ =>
      (* If this is something like arr.filter(x => /*condition*/), check
         `condition` *)
      if isArrayPredicateFunction node then
        match inlineCallbackCondition callback with
        | Some condition => checkNode condition false
        | None =>
            (* Otherwise just do type analysis on the function as a
               whole. *)
            let returnTypes :=
              map getReturnType
                (getCallSignaturesOfType (checker ctx) (typeAt ctx callback)) in
            if (List.length returnTypes =? 0)%nat then []
            else if existsb (fun t => isTypeAnyType t || isTypeUnknownType t)
                      returnTypes
            then []
            else if negb (existsb isPossiblyFalsy returnTypes) then
              [report callback alwaysTruthyFunc]
            else if negb (existsb isPossiblyTruthy returnTypes) then
              [report callback alwaysFalsyFunc]
            else []
        end
      else []
  | _ => []
  end.

(** Checks whether a member expression is nullable or not regardless of
    its previous node.  The source takes a [MemberExpression]; the match on
    [Identifier] is its [isIdentifier(property)]. *)
Definition isMemberExpressionNullableOriginFromObject (node : Expression)
  : bool :=
  match node with
  | MemberExpression object property computed _ =>
      let prevType := typeAt ctx object in
      match property with
      | Identifier name =>
          if isUnion prevType then
            let isOwnNullable :=
              existsb (fun type =>
                if computed then
                  let propertyType := typeAt ctx property in
                  isNullablePropertyType type propertyType
                else
                  match getTypeOfPropertyOfName (checker ctx) type name with
                  | Some propType => isNullableType propType
                  | None =>
                      match getStringIndexInfoOfType (checker ctx) type with
                      | Some _ => true
                      | None => false
                      end
                  end)
                (types prevType) in
            negb isOwnNullable && isNullableType prevType
          else false
      | _ => false
      end
  | _ => false
  end.

(** The source takes a [CallExpression]. *)
Definition isCallExpressionNullableOriginFromCallee (node : Expression)
  : bool :=
  match node with
  | CallExpression callee _ _ =>
      let prevType := typeAt ctx callee in
      if isUnion prevType then
        let isOwnNullable :=
          existsb (fun type =>
            let signatures := getCallSignatures (checker ctx) type in
            existsb (fun sig => isNullableType (getReturnType sig))
              signatures)
            (types prevType) in
        negb isOwnNullable && isNullableType prevType
      else false
  | _ => false
  end.

Definition isOptionableExpression (node : Expression) : bool :=
  let type := typeAt ctx node in
  let isOwnNullable :=
    if AST_NODE_TYPES.eqb (nodeType node) AST_NODE_TYPES.MemberExpression
    then negb (isMemberExpressionNullableOriginFromObject node)
    else if AST_NODE_TYPES.eqb (nodeType node) AST_NODE_TYPES.CallExpression
    then negb (isCallExpressionNullableOriginFromCallee node)
    else true in
  let possiblyVoid := isTypeFlagSet type TypeFlags.Void in
  isTypeFlagSet type (Z.lor TypeFlags.Any TypeFlags.Unknown)
  || (isOwnNullable && (isNullableType type || possiblyVoid)).

(** [context.sourceCode.getTokenAfter(node, filter)] *)
Definition getTokenAfter (n : Expression) (filter : Token -> bool)
  : option Token :=
  find filter (tokensAfter (sourceCode ctx) n).

Definition isQuestionDot (token : Token) : bool :=
  match tokenType token with
  | Punctuator => String.eqb (tokenValue token) "?."
  | OtherToken => false
  end.

(** [node.optional] and the left-hand side ([callee] or [object]) of a
    call or member expression. *)
Definition chainStep (node : Expression) : option (bool * Expression) :=
  match node with
  | CallExpression callee _ optional => Some (optional, callee)
  | MemberExpression object _ _ optional => Some (optional, object)
  | _ => None
  end.

(** The source takes a call or member expression. *)
Definition checkOptionalChain (node beforeOperator : Expression)
  (fix_text : string) : Outcome :=
  match chainStep node with
  | None => Reported []
  | Some (optional, nodeToCheck) =>
      (* We only care if this step in the chain is optional. *)
      if negb optional then Reported []
      else if optionChainContainsOptionArrayIndex node then Reported []
      else if isOptionableExpression nodeToCheck then Reported []
      else
        match getTokenAfter beforeOperator isQuestionDot with
        | None =>
            (* NullThrowsReasons.MissingToken('operator', node.type) *)
            Thrown "Expected to find a operator"
        | Some questionDotOperator =>
            Reported
              [MkReport (Some node) (Some (tokenLoc questionDotOperator))
                 neverOptionalChain
                 (Some (MkFix questionDotOperator fix_text))]
        end
  end.

Definition checkOptionalMemberExpression (node : Expression) : Outcome :=
  match node with
  | MemberExpression object _ computed _ =>
      checkOptionalChain node object (if computed then "" else ".")
  | _ => Reported []
  end.

Definition checkOptionalCallExpression (node : Expression) : Outcome :=
  match node with
  | CallExpression callee _ _ => checkOptionalChain node callee ""
  | _ => Reported []
  end.

Definition checkAssignmentExpression (node : Expression) : list Report :=
  match node with
  | AssignmentExpression operator left_ _ =>
      (* a ||= b is equivalent to a || (a = b) *)
      if existsb (String.eqb operator) ["||="; "&&="] then
        checkNode left_ false
      else if String.eqb operator "??=" then checkNodeForNullish left_
      else []
  | _ => []
  end.
End Rule.

(** ** Where [checkNode] ends up *)

(** The sub-expression at which [checkNode] stops descending: negations are
    stripped and the right operand of [&&] and [||] is entered. *)
Fixpoint checkNodeSite (node : Expression) : Expression :=
  match node with
  | UnaryExpression operator argument =>
      if String.eqb operator "!" then checkNodeSite argument else node
  | LogicalExpression operator _ right_ =>
      if negb (String.eqb operator "??") then checkNodeSite right_ else node
  | _ => node
  end.

(** ** Vocabulary of the specification *)

(** A member of a union decomposition that is Any, Unknown or an unresolved
    type parameter or type variable.  Members of a union are not unions. *)
Definition escapeHatchFlags : Z :=
  Z.lor TypeFlags.Any (Z.lor TypeFlags.Unknown TypeFlags.TypeVariable).

Definition isEscapeHatchMember (part : TsType) : bool :=
  negb (isUnion part) && hasFlags (flags part) escapeHatchFlags.

Definition hasEscapeHatchMember (type : TsType) : bool :=
  existsb isEscapeHatchMember (tsutils.unionTypeParts type).

(** The uninhabited type. *)
Definition isNeverType (type : TsType) : Prop := flags type = TypeFlags.Never.

(** ** Sample types and expressions *)

Module Samples.
Definition intrinsic (fl : Z) (name : string) : TsType :=
  MkType fl [] None (Some name) 0.

Definition anyType := intrinsic TypeFlags.Any "any".
Definition unknownType := intrinsic TypeFlags.Unknown "unknown".
Definition neverType := intrinsic TypeFlags.Never "never".
Definition stringType := intrinsic TypeFlags.String "string".
Definition numberType := intrinsic TypeFlags.Number "number".
Definition nullType := intrinsic TypeFlags.Null "null".
Definition undefinedType := intrinsic TypeFlags.Undefined "undefined".
Definition voidType := intrinsic TypeFlags.Void "void".
Definition trueType := intrinsic TypeFlags.BooleanLiteral "true".
Definition falseType := intrinsic TypeFlags.BooleanLiteral "false".

(** [boolean] is the union [false | true]. *)
Definition booleanType : TsType :=
  MkType (Z.lor TypeFlags.Boolean TypeFlags.Union) [falseType; trueType]
    None (Some "boolean") 0.

Definition unionOf (members : list TsType) : TsType :=
  MkType TypeFlags.Union members None None 0.

Definition objectType (n : nat) : TsType :=
  MkType TypeFlags.Object [] None None n.

Definition arrayType (n : nat) : TsType :=
  MkType TypeFlags.Object [] None None n.

Definition numberLiteral (mantissa : positive) : TsType :=
  MkType TypeFlags.NumberLiteral []
    (Some (NumberValue (S754_finite false mantissa 0))) None 0.

Definition stringLiteral (s : string) : TsType :=
  MkType TypeFlags.StringLiteral [] (Some (StringValue s)) None 0.

(** The type of the literal [0n]. *)
Definition zeroBigIntLiteral : TsType :=
  MkType TypeFlags.BigIntLiteral [] (Some (PseudoBigInt false "0")) None 0.

Definition typeParameter (n : nat) : TsType :=
  MkType TypeFlags.TypeParameter [] None None n.

(** A checker that knows no array, property, signature or index. *)
Definition bareChecker : TypeChecker :=
  {| isArrayType := fun _ => false;
     isTupleType := fun _ => false;
     getProperty := fun _ _ => None;
     getCallSignatures := fun _ => [];
     getCallSignaturesOfType := fun _ => [];
     getIndexInfosOfType := fun _ => [];
     getStringIndexInfoOfType := fun _ => None;
     getTypeOfPropertyOfName := fun _ _ => None;
     getTypeName := fun _ => "";
     numberToString := fun _ => "" |}.

Definition noTokens : SourceCode := {| tokensAfter := fun _ => [] |}.

Definition defaultOptions : Options :=
  {| allowConstantLoopConditions := false;
     allowRuleToRunWithoutStrictNullChecksIKnowWhatIAmDoing := false |}.

(** A context over [bareChecker] in which [typeOf] types every node, under
    strict null checks and the default options. *)
Definition contextOf (typeOf : Expression -> TsType) : RuleContext :=
  {| services := {| getTypeAtLocation := typeOf;
                    getConstrainedTypeAtLocation := typeOf |};
     checker := bareChecker;
     sourceCode := noTokens;
     options := defaultOptions;
     isStrictNullChecks := true |}.

(** Types identifiers by name, and every other node by [other]. *)
Definition byName (env : list (string * TsType)) (other : TsType)
  (node : Expression) : TsType :=
  match node with
  | Identifier name =>
      match find (fun entry => String.eqb (fst entry) name) env with
      | Some entry => snd entry
      | None => other
      end
  | _ => other
  end.
End Samples.

(** ** Sample sites *)

Module Sites.
Import Samples.

(** [a && b] with [a : any] and [b : 5]; the conjunction has type [any]. *)
Definition anyAndFive : Expression :=
  LogicalExpression "&&" (Identifier "a") (Identifier "b").

Definition anyAndFiveContext : RuleContext :=
  contextOf (byName [("a", anyType); ("b", numberLiteral 5)] anyType).

(** [arr[0]] with [arr : never[]]; the element has type [never]. *)
Definition neverElement : Expression :=
  MemberExpression (Identifier "arr") (Literal "0") true false.

Definition neverArrayType : TsType := arrayType 7.

Definition neverElementTypes : Expression -> TsType :=
  byName [("arr", neverArrayType)] neverType.

Definition neverElementContext : RuleContext :=
  {| services := {| getTypeAtLocation := neverElementTypes;
                    getConstrainedTypeAtLocation := neverElementTypes |};
     checker :=
       {| isArrayType := fun t => Nat.eqb (typeId t) 7;
          isTupleType := fun _ => false;
          getProperty := fun _ _ => None;
          getCallSignatures := fun _ => [];
          getCallSignaturesOfType := fun _ => [];
          getIndexInfosOfType := fun _ => [];
          getStringIndexInfoOfType := fun _ => None;
          getTypeOfPropertyOfName := fun _ _ => None;
          getTypeName := fun _ => "";
          numberToString := fun _ => "" |};
     sourceCode := noTokens;
     options := defaultOptions;
     isStrictNullChecks := true |}.

(** [x] with [x : T | undefined] for a type parameter [T], and [n : never]. *)
Definition escapeContext : RuleContext :=
  contextOf
    (byName [("x", unionOf [typeParameter 1; undefinedType]);
             ("n", neverType)] stringType).

(** [!!o] with [o] of an object type. *)
Definition doublyNegatedObject : Expression :=
  UnaryExpression "!" (UnaryExpression "!" (Identifier "o")).

Definition objectContext : RuleContext :=
  contextOf (byName [("o", objectType 1)] booleanType).
End Sites.

(** ** Reference definitions of the specification *)

(** The truthy-literal rule: the literal [true], or a literal type whose
    runtime value is truthy. *)
Definition isTruthyLiteral_spec (t : TsType) : bool :=
  tsutils.isTrueLiteralType t
  || (isLiteral_method t
      && match value t with
         | Some v => runtimeValueIsTruthy v
         | None => false
         end).

(** Possibly falsy, in the words of the specification: some member of the
    intersection decomposition of some union part is not a truthy literal
    and carries the PossiblyFalsy flag. *)
Definition isPossiblyFalsy_spec (t : TsType) : bool :=
  existsb (fun part =>
             existsb (fun member =>
                        negb (isTruthyLiteral_spec member)
                        && isTypeFlagSet member TypeFlags.PossiblyFalsy)
               (tsutils.intersectionTypeParts part))
    (tsutils.unionTypeParts t).

(** The members [isPossiblyFalsy] looks at. *)
Definition intersectionMembers (t : TsType) : list TsType :=
  flat_map tsutils.intersectionTypeParts (tsutils.unionTypeParts t).

Definition isBigIntValue (t : TsType) : bool :=
  match value t with
  | Some (PseudoBigInt _ _) => true
  | _ => false
  end.

(** The no-overlap condition of the binary comparison analyzer: one operand
    is exactly Undefined (or exactly Null) and the other cannot be
    Undefined or Void (or Null), nor Any, Unknown or a type parameter or
    variable, nor, under a loose operator, Null, Undefined or Void. *)
Definition isLooseOperator (operator : string) : Prop :=
  operator = "==" \/ operator = "!=".

Definition carriesNoneOf (type : TsType) (mask : Z) : Prop :=
  isTypeFlagSet type mask = false.

Definition cannotBe (operator : string) (type : TsType) (flag : Z) : Prop :=
  carriesNoneOf type flag
  /\ carriesNoneOf type
       (Z.lor TypeFlags.Any
          (Z.lor TypeFlags.Unknown
             (Z.lor TypeFlags.TypeParameter TypeFlags.TypeVariable)))
  /\ (isLooseOperator operator ->
      carriesNoneOf type
        (Z.lor TypeFlags.Null (Z.lor TypeFlags.Undefined TypeFlags.Void))).

Definition noTypeOverlap (ctx : RuleContext) (operator : string)
  (leftType rightType : TsType) : Prop :=
  isStrictNullChecks ctx = true
  /\ ((flags leftType = TypeFlags.Undefined
       /\ cannotBe operator rightType
            (Z.lor TypeFlags.Undefined TypeFlags.Void))
      \/ (flags rightType = TypeFlags.Undefined
          /\ cannotBe operator leftType
               (Z.lor TypeFlags.Undefined TypeFlags.Void))
      \/ (flags leftType = TypeFlags.Null
          /\ cannotBe operator rightType TypeFlags.Null)
      \/ (flags rightType = TypeFlags.Null
          /\ cannotBe operator leftType TypeFlags.Null)).

(** A condition whose truthiness its type settles: the type is never truthy
    or never falsy. *)
Definition isConstantCondition (t : TsType) : bool :=
  negb (isPossiblyTruthy t) || negb (isPossiblyFalsy t).

Module LoopSites.
Import Samples.

Definition constantLoopOptions : Options :=
  {| allowConstantLoopConditions := true;
     allowRuleToRunWithoutStrictNullChecksIKnowWhatIAmDoing := false |}.

(** Literals typed by their text: [true], [false] and [1]. *)
Definition literalTypes (node : Expression) : TsType :=
  match node with
  | Literal raw =>
      if String.eqb raw "true" then trueType
      else if String.eqb raw "false" then falseType
      else numberLiteral 1
  | _ => booleanType
  end.

Definition constantLoopContext : RuleContext :=
  {| services := {| getTypeAtLocation := literalTypes;
                    getConstrainedTypeAtLocation := literalTypes |};
     checker := bareChecker;
     sourceCode := noTokens;
     options := constantLoopOptions;
     isStrictNullChecks := true |}.

(** [while (true) {}], [while (1) {}] and [do {} while (false)] *)
Definition whileTrue : Statement :=
  WhileStatement (Literal "true") (BlockStatement []).
Definition whileOne : Statement :=
  WhileStatement (Literal "1") (BlockStatement []).
Definition doWhileFalse : Statement :=
  DoWhileStatement (BlockStatement []) (Literal "false").
End LoopSites.

Module CoalesceSites.
Import Samples.

(** [x ?? true] and [x && true] with [x : boolean | undefined]. *)
Definition coalesceTypes (node : Expression) : TsType :=
  match node with
  | Identifier _ => unionOf [undefinedType; falseType; trueType]
  | Literal _ => trueType
  | _ => booleanType
  end.

Definition coalesceContext : RuleContext := contextOf coalesceTypes.

Definition xOrElseTrue : Expression :=
  LogicalExpression "??" (Identifier "x") (Literal "true").
Definition xAndTrue : Expression :=
  LogicalExpression "&&" (Identifier "x") (Literal "true").
End CoalesceSites.

Module CompareSites.
Import Samples.

(** [s === undefined] with [s : string]. *)
Definition compareTypes : Expression -> TsType :=
  byName [("s", stringType); ("undefined", undefinedType)] stringType.

Definition compareContext : RuleContext := contextOf compareTypes.

Definition stringIsUndefined : Expression :=
  BinaryExpression "===" (Identifier "s") (Identifier "undefined").
End CompareSites.

(** ** Optional chains *)

(** The steps of the chain that ends at a node: the node itself and, going
    down through [callee] and [object], the call and member expressions
    before it. *)
Fixpoint chainSteps (node : Expression) : list Expression :=
  match node with
  | CallExpression callee _ _ => node :: chainSteps callee
  | MemberExpression object _ _ _ => node :: chainSteps object
  | _ => []
  end.

(** An optional step whose base is a computed index into an array, or a
    non-literal index into a tuple. *)
Definition isOptionalArrayIndexStep (ctx : RuleContext) (step : Expression)
  : bool :=
  match chainStep step with
  | Some (optional, base) => optional && isArrayIndexExpression ctx base
  | None => false
  end.

Definition chainHasOptionalArrayIndexStep (ctx : RuleContext)
  (node : Expression) : bool :=
  existsb (isOptionalArrayIndexStep ctx) (chainSteps node).

(** No member of a union, taken alone, gives the property a nullable type. *)
Definition noMemberYieldsNullable (ctx : RuleContext) (type : TsType)
  (name : string) : Prop :=
  forall member, In member (types type) ->
    match getTypeOfPropertyOfName (checker ctx) member name with
    | Some propType => isNullableType propType = false
    | None => getStringIndexInfoOfType (checker ctx) member = None
    end.

(** The report of a redundant optional step, with its fix. *)
Definition redundantOptionalStep (step : Expression) (questionDot : Token)
  (text : string) : Report :=
  MkReport (Some step) (Some (tokenLoc questionDot)) neverOptionalChain
    (Some (MkFix questionDot text)).

Module ChainSites.
Import Samples.

Definition questionDot : Token := MkToken Punctuator "?." (MkLoc 3 5).

(** Object types: 1 is [{ bar: { baz: string } }], 2 is [{ baz: string }],
    3 is [{ a: string }], 4 is [{ foo: string }], 5 is [{ foo: string }[]]. *)
Definition chainChecker : TypeChecker :=
  {| isArrayType := fun t => Nat.eqb (typeId t) 5;
     isTupleType := fun _ => false;
     getProperty := fun _ _ => None;
     getCallSignatures := fun _ => [];
     getCallSignaturesOfType := fun _ => [];
     getIndexInfosOfType := fun _ => [];
     getStringIndexInfoOfType := fun _ => None;
     getTypeOfPropertyOfName := fun t name =>
       if Nat.eqb (typeId t) 1 && String.eqb name "bar"
       then Some (objectType 2)
       else if Nat.eqb (typeId t) 2 && String.eqb name "baz"
       then Some stringType
       else if Nat.eqb (typeId t) 3 && String.eqb name "a"
       then Some stringType
       else if Nat.eqb (typeId t) 4 && String.eqb name "foo"
       then Some stringType
       else None;
     getTypeName := fun _ => "";
     numberToString := fun _ => "" |}.

(** [foo : { bar: { baz: string } } | null], [base : { a: string } | null],
    [a : { a: string }], [arr : { foo: string }[]], [i : number]. *)
Definition identifierTypes : list (string * TsType) :=
  [("foo", unionOf [objectType 1; nullType]);
   ("base", unionOf [objectType 3; nullType]);
   ("a", objectType 3);
   ("arr", arrayType 5);
   ("i", numberType)].

Definition chainTypes (node : Expression) : TsType :=
  match node with
  | Identifier _ => byName identifierTypes stringType node
  (* foo?.bar : { baz: string } | undefined *)
  | MemberExpression (Identifier _) (Identifier _) false true =>
      unionOf [objectType 2; undefinedType]
  (* arr[i] : { foo: string } *)
  | MemberExpression (Identifier _) (Identifier _) true false => objectType 4
  (* the model leaves the chain wrapper non-nullable: the guard decides *)
  | ChainExpression _ => stringType
  | _ => unionOf [stringType; undefinedType]
  end.

Definition chainContext : RuleContext :=
  {| services := {| getTypeAtLocation := chainTypes;
                    getConstrainedTypeAtLocation := chainTypes |};
     checker := chainChecker;
     sourceCode := {| tokensAfter := fun _ => [questionDot] |};
     options := defaultOptions;
     isStrictNullChecks := true |}.

(** [foo?.bar] and [foo?.bar?.baz] *)
Definition fooBar : Expression :=
  MemberExpression (Identifier "foo") (Identifier "bar") false true.
Definition fooBarBaz : Expression :=
  MemberExpression fooBar (Identifier "baz") false true.

(** [base?.a] and [a?.a] *)
Definition baseA : Expression :=
  MemberExpression (Identifier "base") (Identifier "a") false true.
Definition aA : Expression :=
  MemberExpression (Identifier "a") (Identifier "a") false true.

(** [arr[i]?.foo] *)
Definition arrI : Expression :=
  MemberExpression (Identifier "arr") (Identifier "i") true false.
Definition arrIFoo : Expression :=
  MemberExpression arrI (Identifier "foo") false true.
End ChainSites.

(** ** The listeners and the tree walk *)

(** One outcome after the other; an exception ends the run. *)
Definition andThen (first second : Outcome) : Outcome :=
  match first, second with
  | Reported a, Reported b => Reported (a ++ b)
  | Thrown reason, _ => Thrown reason
  | Reported _, Thrown reason => Thrown reason
  end.

(** The listener table of the rule, on expressions:
    [AssignmentExpression], [BinaryExpression], [CallExpression],
    [ConditionalExpression], [LogicalExpression],
    [MemberExpression[optional = true]] and
    [CallExpression[optional = true]]. *)
Definition expressionListeners (ctx : RuleContext) (node : Expression)
  : Outcome :=
  match node with
  | AssignmentExpression _ _ _ => Reported (checkAssignmentExpression ctx node)
  | BinaryExpression _ _ _ =>
      Reported (checkIfBinaryExpressionIsNecessaryConditional ctx node)
  | CallExpression _ _ optional =>
      andThen (Reported (checkCallExpression ctx node))
        (if optional then checkOptionalCallExpression ctx node
         else Reported [])
  | ConditionalExpression test _ _ => Reported (checkNode ctx test false)
  | LogicalExpression _ _ _ =>
      Reported (checkLogicalExpressionForUnnecessaryConditionals ctx node)
  | MemberExpression _ _ _ optional =>
      if optional then checkOptionalMemberExpression ctx node
      else Reported []
  | _ => Reported []
  end.

(** The listener table on statements: [DoWhileStatement], [ForStatement],
    [IfStatement] and [WhileStatement]. *)
Definition statementListeners (ctx : RuleContext) (node : Statement)
  : list Report :=
  match node with
  | DoWhileStatement _ _ | ForStatement _ _ _ _ | WhileStatement _ _ =>
      checkIfLoopIsNecessaryConditional ctx node
  | IfStatement test _ _ => checkNode ctx test false
  | _ => []
  end.

(** An occurrence of a node in a tree: the child indices from the root.
    The children of a node are numbered in the order of its fields; the
    arguments of a call follow the callee, and the statements of a block are
    the children of the block. *)
Definition Path : Type := list nat.

(** A run of one of the two classifiers. *)
Inductive ClassifierCall : Type :=
| Truthiness (node : Expression)
| Nullishness (node : Expression).

Definition runCall (ctx : RuleContext) (call : ClassifierCall) : list Report :=
  match call with
  | Truthiness e => checkNode ctx e false
  | Nullishness e => checkNodeForNullish ctx e
  end.

Definition classifierReports (ctx : RuleContext)
  (calls : list (Path * ClassifierCall)) : list Report :=
  flat_map (fun call => runCall ctx (snd call)) calls.

(** The calls made below child [i], seen from the parent. *)
Definition under (i : nat) (calls : list (Path * ClassifierCall))
  : list (Path * ClassifierCall) :=
  map (fun call => (i :: fst call, snd call)) calls.

(** The calls made in the members of a list of children numbered from
    [i]. *)
Definition indexed {A : Type} (f : A -> list (Path * ClassifierCall))
  : nat -> list A -> list (Path * ClassifierCall) :=
  fix go (i : nat) (l : list A) : list (Path * ClassifierCall) :=
    match l with
    | [] => []
    | a :: l' => under i (f a) ++ go (S i) l'
    end.

(** Where, below an inline callback, the condition that
    [checkCallExpression] hands to [checkNode] sits. *)
Definition singleReturnArgumentAt (callbackBody : list Statement)
  : option (Path * Expression) :=
  match callbackBody with
  | [ReturnStatement (Some argument)] => Some ([0; 0; 0]%nat, argument)
  | _ => None
  end.

Definition inlineCallbackConditionAt (callback : Expression)
  : option (Path * Expression) :=
  match callback with
  | ArrowFunctionExpression (ExpressionBody body) => Some ([0]%nat, body)
  | ArrowFunctionExpression (BlockBody callbackBody) =>
      singleReturnArgumentAt callbackBody
  | FunctionExpression callbackBody => singleReturnArgumentAt callbackBody
  | _ => None
  end.

(** The classifier calls that the listeners of an expression make, with the
    occurrence of their argument below the expression. *)
Definition expressionListenerCalls (ctx : RuleContext) (node : Expression)
  : list (Path * ClassifierCall) :=
  match node with
  | AssignmentExpression operator left_ _ =>
      if existsb (String.eqb operator) ["||="; "&&="] then
        [([0%nat], Truthiness left_)]
      else if String.eqb operator "??=" then [([0%nat], Nullishness left_)]
      else []
  | ConditionalExpression test _ _ => [([0%nat], Truthiness test)]
  | LogicalExpression operator left_ _ =>
      if String.eqb operator "??" then [([0%nat], Nullishness left_)]
      else [([0%nat], Truthiness left_)]
  | CallExpression _ (callback :: _) _ =>
      if isArrayPredicateFunction ctx node then
        match inlineCallbackConditionAt callback with
        | Some (path, condition) => [(1%nat :: path, Truthiness condition)]
        | None => []
        end
      else []
  | _ => []
  end.

(** The classifier calls that the listeners of a statement make. *)
Definition statementListenerCalls (ctx : RuleContext) (node : Statement)
  : list (Path * ClassifierCall) :=
  let loop (index : nat) (test : Expression) :=
    if allowConstantLoopConditions (options ctx)
       && tsutils.isTrueLiteralType (typeAt ctx test)
    then []
    else [([index], Truthiness test)] in
  match node with
  | IfStatement test _ _ => [([0%nat], Truthiness test)]
  | WhileStatement test _ => loop 0%nat test
  | DoWhileStatement _ test => loop 1%nat test
  | ForStatement _ (Some test) _ _ => loop 1%nat test
  | _ => []
  end.

Definition optionalCalls {A : Type} (f : A -> list (Path * ClassifierCall))
  (i : nat) (child : option A) : list (Path * ClassifierCall) :=
  match child with
  | Some a => under i (f a)
  | None => []
  end.

(** The walk over a tree: at every node the listeners run, then the
    children are walked.  It gives the classifier calls of the whole walk,
    each with the occurrence of its argument. *)
Fixpoint expressionCalls (ctx : RuleContext) (node : Expression)
  {struct node} : list (Path * ClassifierCall) :=
  expressionListenerCalls ctx node
  ++ match node with
     | Identifier _ | Literal _ => []
     | UnaryExpression _ argument => under 0 (expressionCalls ctx argument)
     | LogicalExpression _ left_ right_
     | BinaryExpression _ left_ right_
     | AssignmentExpression _ left_ right_ =>
         under 0 (expressionCalls ctx left_)
         ++ under 1 (expressionCalls ctx right_)
     | ConditionalExpression test consequent alternate =>
         under 0 (expressionCalls ctx test)
         ++ under 1 (expressionCalls ctx consequent)
         ++ under 2 (expressionCalls ctx alternate)
     | MemberExpression object property _ _ =>
         under 0 (expressionCalls ctx object)
         ++ under 1 (expressionCalls ctx property)
     | CallExpression callee arguments _ =>
         under 0 (expressionCalls ctx callee)
         ++ indexed (expressionCalls ctx) 1 arguments
     | ChainExpression expression | TSNonNullExpression expression =>
         under 0 (expressionCalls ctx expression)
     | ArrowFunctionExpression body => under 0 (arrowBodyCalls ctx body)
     | FunctionExpression body =>
         under 0 (indexed (statementCalls ctx) 0 body)
     end
with arrowBodyCalls (ctx : RuleContext) (body : ArrowBody) {struct body}
  : list (Path * ClassifierCall) :=
  match body with
  | ExpressionBody expression => expressionCalls ctx expression
  | BlockBody statements => indexed (statementCalls ctx) 0 statements
  end
with statementCalls (ctx : RuleContext) (node : Statement) {struct node}
  : list (Path * ClassifierCall) :=
  statementListenerCalls ctx node
  ++ match node with
     | ExpressionStatement expression =>
         under 0 (expressionCalls ctx expression)
     | ReturnStatement argument =>
         optionalCalls (expressionCalls ctx) 0 argument
     | BlockStatement body => indexed (statementCalls ctx) 0 body
     | IfStatement test consequent alternate =>
         under 0 (expressionCalls ctx test)
         ++ under 1 (statementCalls ctx consequent)
         ++ optionalCalls (statementCalls ctx) 2 alternate
     | WhileStatement test body =>
         under 0 (expressionCalls ctx test)
         ++ under 1 (statementCalls ctx body)
     | DoWhileStatement body test =>
         under 0 (statementCalls ctx body)
         ++ under 1 (expressionCalls ctx test)
     | ForStatement init test update body =>
         optionalCalls (expressionCalls ctx) 0 init
         ++ optionalCalls (expressionCalls ctx) 1 test
         ++ optionalCalls (expressionCalls ctx) 2 update
         ++ under 3 (statementCalls ctx body)
     end.

(** The occurrences [checkNode] runs on, from the node it is called with
    down to the one it ends up at. *)
Fixpoint checkNodeVisits (node : Expression) : list Path :=
  [] :: match node with
        | UnaryExpression operator argument =>
            if String.eqb operator "!"
            then map (cons 0%nat) (checkNodeVisits argument)
            else []
        | LogicalExpression operator _ right_ =>
            if negb (String.eqb operator "??")
            then map (cons 1%nat) (checkNodeVisits right_)
            else []
        | _ => []
        end.

(** The occurrences a classifier call runs on. *)
Definition checkedBy (call : Path * ClassifierCall) : list Path :=
  match snd call with
  | Truthiness e => map (app (fst call)) (checkNodeVisits e)
  | Nullishness _ => [fst call]
  end.

(** The occurrences the calls of a list run on. *)
Definition occurrencesOf (calls : list (Path * ClassifierCall)) : list Path :=
  flat_map checkedBy calls.

(** Every occurrence a classifier runs on during the walk of a program. *)
Definition checkedOccurrences (ctx : RuleContext) (program : Statement)
  : list Path :=
  occurrencesOf (statementCalls ctx program).

Definition Path_eq_dec : forall a b : Path, {a = b} + {a <> b} :=
  list_eq_dec Nat.eq_dec.

(** How many times an occurrence is in a list. *)
Definition timesChecked (occurrence : Path) (l : list Path) : nat :=
  count_occ Path_eq_dec l occurrence.

(** The sub-expression at an occurrence reached through [!] arguments and
    right operands alone. *)
Fixpoint operandAt (node : Expression) (path : Path) : option Expression :=
  match path with
  | [] => Some node
  | i :: path' =>
      match node with
      | UnaryExpression _ argument =>
          if Nat.eqb i 0 then operandAt argument path' else None
      | LogicalExpression _ _ right_ =>
          if Nat.eqb i 1 then operandAt right_ path' else None
      | _ => None
      end
  end.

Module WalkSites.
Import Samples.

(** [if (a && !b) {}] with [a] and [b] of type boolean. *)
Definition ifAAndNotB : Statement :=
  IfStatement
    (LogicalExpression "&&" (Identifier "a")
       (UnaryExpression "!" (Identifier "b")))
    (BlockStatement []) None.

Definition booleanContext : RuleContext := contextOf (fun _ => booleanType).

(** [a && o] and [a || o] with [a : boolean] and [o] of an object type. *)
Definition conjunctionContext : RuleContext :=
  contextOf (byName [("o", objectType 1)] booleanType).
End WalkSites.

(** No call of a walk is on the root of the walked tree. *)
Definition nonRoot (calls : list (Path * ClassifierCall)) : Prop :=
  Forall (fun call => fst call <> []) calls.

(** Every occurrence is run on at most once by the calls of a list. *)
Definition once (calls : list (Path * ClassifierCall)) : Prop :=
  forall q, (timesChecked q (occurrencesOf calls) <= 1)%nat.

(** ** Vocabulary for the further properties *)

(** The truthy and falsy labels exchanged, as a negation does. *)
Definition swapLabel (m : MessageId) : MessageId :=
  match m with
  | alwaysTruthy => alwaysFalsy
  | alwaysFalsy => alwaysTruthy
  | other => other
  end.

Definition swapLabels (r : Report) : Report :=
  MkReport (node r) (loc r) (swapLabel (messageId r)) (fix_ r).

(** Whether [checkNode] descends from a node: a [!] negation, or a logical
    expression other than [??]. *)
Definition checkNodeDescends (e : Expression) : bool :=
  match e with
  | UnaryExpression operator _ => String.eqb operator "!"
  | LogicalExpression operator _ _ => negb (String.eqb operator "??")
  | _ => false
  end.

(** A literal type as the checker builds it: a string, number or bigint
    literal, or one of the boolean literals. *)
Definition isWellFormedLiteral (t : TsType) : Prop :=
  (flags t = TypeFlags.StringLiteral \/ flags t = TypeFlags.NumberLiteral
   \/ flags t = TypeFlags.BigIntLiteral)
  \/ (flags t = TypeFlags.BooleanLiteral
      /\ (intrinsicName t = Some "true" \/ intrinsicName t = Some "false")).

(** The members of a union are not unions themselves. *)
Definition flatUnion (t : TsType) : Prop :=
  Forall (fun part => isUnion part = false) (tsutils.unionTypeParts t).

(** The context with another setting of [allowConstantLoopConditions]. *)
Definition withConstantLoopConditions (ctx : RuleContext) (allow : bool)
  : RuleContext :=
  {| services := services ctx;
     checker := checker ctx;
     sourceCode := sourceCode ctx;
     options :=
       {| allowConstantLoopConditions := allow;
          allowRuleToRunWithoutStrictNullChecksIKnowWhatIAmDoing :=
            allowRuleToRunWithoutStrictNullChecksIKnowWhatIAmDoing
              (options ctx) |};
     isStrictNullChecks := isStrictNullChecks ctx |}.

(** The reports of an outcome; an exception has none. *)
Definition reportsOf (o : Outcome) : list Report :=
  match o with
  | Reported reports => reports
  | Thrown _ => []
  end.

Module CallSites.
Import Samples.

(** Types: 5 is an array type, 10 is the function type
    [() => { bar: string }], 11 is [{ bar: string }], 12 is the type of a
    function that returns the literal ["a"]. *)
Definition callChecker : TypeChecker :=
  {| isArrayType := fun t => Nat.eqb (typeId t) 5;
     isTupleType := fun _ => false;
     getProperty := fun _ _ => None;
     getCallSignatures := fun t =>
       if Nat.eqb (typeId t) 10 then [MkSignature (objectType 11)] else [];
     getCallSignaturesOfType := fun t =>
       if Nat.eqb (typeId t) 12 then [MkSignature (stringLiteral "a")]
       else [];
     getIndexInfosOfType := fun _ => [];
     getStringIndexInfoOfType := fun _ => None;
     getTypeOfPropertyOfName := fun _ _ => None;
     getTypeName := fun _ => "";
     numberToString := fun _ => "" |}.

(** [foo : (() => { bar: string }) | undefined], [arr] an array, [isA] a
    function returning ["a"], [o] an object; the call [foo?.()] has type
    [{ bar: string } | undefined]. *)
Definition callTypes (e : Expression) : TsType :=
  match e with
  | Identifier _ =>
      byName [("foo", unionOf [objectType 10; undefinedType]);
              ("arr", arrayType 5);
              ("isA", objectType 12);
              ("o", objectType 11)] stringType e
  | CallExpression _ _ _ => unionOf [objectType 11; undefinedType]
  | _ => stringType
  end.

Definition callContext : RuleContext :=
  {| services := {| getTypeAtLocation := callTypes;
                    getConstrainedTypeAtLocation := callTypes |};
     checker := callChecker;
     sourceCode := {| tokensAfter := fun _ => [ChainSites.questionDot] |};
     options := defaultOptions;
     isStrictNullChecks := true |}.

(** [foo?.()] and [foo?.()?.bar] *)
Definition fooCall : Expression :=
  CallExpression (Identifier "foo") [] true.
Definition fooCallBar : Expression :=
  MemberExpression fooCall (Identifier "bar") false true.

(** [arr.filter(isA)] and [arr.filter(() => o)] *)
Definition arrFilter : Expression :=
  MemberExpression (Identifier "arr") (Identifier "filter") false false.
Definition filterByReference : Expression :=
  CallExpression arrFilter [Identifier "isA"] false.
Definition filterInline : Expression :=
  CallExpression arrFilter
    [ArrowFunctionExpression (ExpressionBody (Identifier "o"))] false.
End CallSites.

(** The text that replaces the [?.] of a step: [.] for a plain member
    access, nothing for a computed access or a call. *)
Definition replacementOf (step : Expression) : string :=
  match step with
  | MemberExpression _ _ false _ => "."
  | _ => ""
  end.

(** The listeners of an optional step, one for member accesses and one for
    calls. *)
Definition checkOptionalStep (ctx : RuleContext) (step : Expression)
  : Outcome :=
  match step with
  | MemberExpression _ _ _ _ => checkOptionalMemberExpression ctx step
  | CallExpression _ _ _ => checkOptionalCallExpression ctx step
  | _ => Reported []
  end.

(** The steps under one chain expression: as [chainSteps], but going on
    through the non-null assertions of the chain. *)
Fixpoint wholeChainSteps (node : Expression) : list Expression :=
  match node with
  | CallExpression callee _ _ => node :: wholeChainSteps callee
  | MemberExpression object _ _ _ => node :: wholeChainSteps object
  | TSNonNullExpression expression => wholeChainSteps expression
  | _ => []
  end.

Module AssertedChainSites.
Import Samples.

(** [arr : { foo: { bar: { baz: string } } }[]]; every step of the chain
    has a non-nullable object type, and the whole chain has type string. *)
Definition assertedTypes (e : Expression) : TsType :=
  match e with
  | Identifier name => if String.eqb name "arr" then arrayType 5 else numberType
  | ChainExpression _ => stringType
  | _ => objectType 4
  end.

Definition assertedContext : RuleContext :=
  {| services := {| getTypeAtLocation := assertedTypes;
                    getConstrainedTypeAtLocation := assertedTypes |};
     checker := ChainSites.chainChecker;
     sourceCode := {| tokensAfter := fun _ => [ChainSites.questionDot] |};
     options := defaultOptions;
     isStrictNullChecks := true |}.

(** [arr[i]?.foo!], [arr[i]?.foo!.bar] and [arr[i]?.foo!.bar?.baz] *)
Definition fooAsserted : Expression := TSNonNullExpression ChainSites.arrIFoo.
Definition fooAssertedBar : Expression :=
  MemberExpression fooAsserted (Identifier "bar") false false.
Definition fooAssertedBarBaz : Expression :=
  MemberExpression fooAssertedBar (Identifier "baz") false true.
End AssertedChainSites.

(** * Properties *)

(** ** Flag arithmetic *)

Lemma lor_eqb_0 (a b : Z) : (Z.lor a b =? 0) = (a =? 0) && (b =? 0).
Proof.
  destruct (Z.lor a b =? 0) eqn:E; symmetry.
  - apply Z.eqb_eq, Z.lor_eq_0_iff in E as [-> ->]. reflexivity.
  - apply andb_false_iff. apply Z.eqb_neq in E.
    destruct (a =? 0) eqn:Ea; [right|now left].
    apply Z.eqb_neq. intros ->. apply Z.eqb_eq in Ea as ->. now apply E.
Qed.

Lemma hasFlags_lor_l (a b mask : Z) :
  hasFlags (Z.lor a b) mask = hasFlags a mask || hasFlags b mask.
Proof.
  unfold hasFlags.
  now rewrite Z.land_lor_distr_l, lor_eqb_0, negb_andb.
Qed.

Lemma hasFlags_lor_r (fl m1 m2 : Z) :
  hasFlags fl (Z.lor m1 m2) = hasFlags fl m1 || hasFlags fl m2.
Proof.
  unfold hasFlags.
  now rewrite Z.land_lor_distr_r, lor_eqb_0, negb_andb.
Qed.

(** Evaluates the flag tests between constants. *)
Ltac eval_flags :=
  repeat match goal with
  | |- context [hasFlags ?a ?b] =>
      let v := eval vm_compute in (hasFlags a b) in
      match v with
      | true => change (hasFlags a b) with true
      | false => change (hasFlags a b) with false
      end
  end.

Lemma hasFlags_0_l (mask : Z) : hasFlags 0 mask = false.
Proof. unfold hasFlags. now rewrite Z.land_0_l. Qed.

Lemma hasFlags_fold (parts : list TsType) (acc mask : Z) :
  hasFlags (fold_left (fun a part => Z.lor a (flags part)) parts acc) mask
  = hasFlags acc mask || existsb (fun part => hasFlags (flags part) mask) parts.
Proof.
  revert acc. induction parts as [|part parts IH]; intros acc; cbn.
  - now rewrite orb_false_r.
  - rewrite IH, hasFlags_lor_l. now rewrite orb_assoc.
Qed.

(** A type carries a flag exactly when a member of its union decomposition
    has it. *)
Lemma isTypeFlagSet_unionTypeParts (t : TsType) (mask : Z) :
  isTypeFlagSet t mask
  = existsb (fun part => hasFlags (flags part) mask) (tsutils.unionTypeParts t).
Proof.
  unfold isTypeFlagSet, getTypeFlags.
  now rewrite hasFlags_fold, hasFlags_0_l.
Qed.

Lemma unionTypeParts_not_union (t : TsType) :
  isUnion t = false -> tsutils.unionTypeParts t = [t].
Proof. unfold tsutils.unionTypeParts. now intros ->. Qed.

Lemma isTypeFlagSet_not_union (t : TsType) (mask : Z) :
  isUnion t = false -> isTypeFlagSet t mask = hasFlags (flags t) mask.
Proof.
  intros H. rewrite isTypeFlagSet_unionTypeParts, unionTypeParts_not_union by easy.
  cbn. now rewrite orb_false_r.
Qed.

Lemma never_not_union (t : TsType) : isNeverType t -> isUnion t = false.
Proof. unfold isNeverType, isUnion. now intros ->. Qed.

Lemma never_not_intersection (t : TsType) :
  isNeverType t -> isIntersection t = false.
Proof. unfold isNeverType, isIntersection. now intros ->. Qed.

(** ** The escape hatch *)

Lemma escape_hatch_member_involves (part : TsType) :
  isEscapeHatchMember part = true ->
  isTypeAnyType part || isTypeUnknownType part
  || isTypeFlagSet part TypeFlags.TypeVariable = true.
Proof.
  unfold isEscapeHatchMember, isTypeAnyType, isTypeUnknownType.
  rewrite andb_true_iff, negb_true_iff. intros [Hu Hf].
  rewrite !isTypeFlagSet_not_union by exact Hu.
  unfold escapeHatchFlags in Hf. rewrite !hasFlags_lor_r in Hf.
  now rewrite <- orb_assoc.
Qed.

Lemma escape_hatch_involves (type : TsType) :
  hasEscapeHatchMember type = true ->
  involvesAnyUnknownOrTypeVariable type = true.
Proof.
  unfold hasEscapeHatchMember, involvesAnyUnknownOrTypeVariable.
  rewrite !existsb_exists. intros [part [Hin Hp]].
  exists part. split; [exact Hin|]. now apply escape_hatch_member_involves.
Qed.

Lemma escape_hatch_carried (type : TsType) :
  hasEscapeHatchMember type = true ->
  isTypeFlagSet type
    (Z.lor TypeFlags.Any
       (Z.lor TypeFlags.Unknown
          (Z.lor TypeFlags.TypeParameter TypeFlags.TypeVariable))) = true.
Proof.
  unfold hasEscapeHatchMember. rewrite isTypeFlagSet_unionTypeParts.
  rewrite !existsb_exists. intros [part [Hin Hp]].
  exists part. split; [exact Hin|].
  unfold isEscapeHatchMember in Hp. apply andb_true_iff in Hp as [_ Hp].
  exact Hp.
Qed.

(** ** The shape of [checkNode] *)

Section CheckNodeShape.
Variable ctx : RuleContext.

Lemma isArrayIndexExpression_member (node : Expression) :
  isArrayIndexExpression ctx node = true ->
  nodeType node = AST_NODE_TYPES.MemberExpression.
Proof. destruct node; cbn; congruence. Qed.

(** [checkNode] does at its site what it does at a node it does not
    descend from: skip an array index, else report on the type. *)
Lemma checkNode_at_site (node : Expression) (isUnaryNotArgument : bool) :
  exists negated : bool,
    checkNode ctx node isUnaryNotArgument
    = if isArrayIndexExpression ctx (checkNodeSite node) then []
      else checkNode_report ctx (checkNodeSite node) negated.
Proof.
  revert isUnaryNotArgument.
  induction node; intros neg; try (exists neg; reflexivity).
  - cbn [checkNode checkNodeSite].
    destruct (String.eqb operator "!").
    + apply IHnode.
    + exists neg. reflexivity.
  - cbn [checkNode checkNodeSite].
    destruct (String.eqb operator "??"); cbn [negb isArrayIndexExpression].
    + exists neg. reflexivity.
    + apply IHnode2.
Qed.

End CheckNodeShape.

(** ** Any, Unknown and type variables suppress the verdict *)

(** C1, as the code has it.  [checkNode] emits nothing when the type of the
    expression it ends up at (negations stripped, right operands of [&&] and
    [||] entered) has a union member that is Any, Unknown or a type
    parameter or type variable; [checkNodeForNullish] emits nothing when the
    type of the expression itself has one. *)
Theorem escape_hatch_suppresses_verdicts
  (ctx : RuleContext) (node : Expression) (isUnaryNotArgument : bool) :
  (hasEscapeHatchMember (typeAt ctx (checkNodeSite node)) = true ->
   checkNode ctx node isUnaryNotArgument = [])
  /\ (hasEscapeHatchMember (typeAt ctx node) = true ->
      checkNodeForNullish ctx node = []).
Proof.
  split; intros H.
  - destruct (checkNode_at_site ctx node isUnaryNotArgument) as [negated ->].
    destruct (isArrayIndexExpression ctx (checkNodeSite node)); [reflexivity|].
    unfold checkNode_report.
    now rewrite (escape_hatch_involves _ H).
  - unfold checkNodeForNullish.
    now rewrite (escape_hatch_carried _ H).
Qed.

Lemma escape_hatch_suppresses_verdicts_witness :
  hasEscapeHatchMember
    (typeAt Sites.escapeContext (checkNodeSite (Identifier "x"))) = true
  /\ checkNode Sites.escapeContext (Identifier "x") false = []
  /\ checkNodeForNullish Sites.escapeContext (Identifier "x") = [].
Proof.
  split; [reflexivity|].
  split;
    apply (escape_hatch_suppresses_verdicts Sites.escapeContext
             (Identifier "x") false); reflexivity.
Defined.

(** C1 as stated fails on a conjunction: [a && 5] with [a : any] has type
    [any], and [checkNode] reports its right operand as always truthy. *)
Lemma checkNode_any_conjunction_reports :
  hasEscapeHatchMember (typeAt Sites.anyAndFiveContext Sites.anyAndFive) = true
  /\ checkNode Sites.anyAndFiveContext Sites.anyAndFive false
     = [report (Identifier "b") alwaysTruthy].
Proof. split; reflexivity. Qed.

(** ** The uninhabited type *)

Lemma never_not_escape (t : TsType) :
  isNeverType t -> involvesAnyUnknownOrTypeVariable t = false.
Proof.
  intros H. unfold involvesAnyUnknownOrTypeVariable.
  rewrite unionTypeParts_not_union by now apply never_not_union.
  cbn. unfold isTypeAnyType, isTypeUnknownType.
  rewrite !isTypeFlagSet_not_union by now apply never_not_union.
  unfold isNeverType in H. now rewrite H.
Qed.

(** Left to the truthiness and nullishness predicates, the uninhabited type
    would count as always truthy and never nullish. *)
Lemma never_classification (t : TsType) :
  isNeverType t ->
  isPossiblyTruthy t = true /\ isPossiblyFalsy t = false
  /\ isPossiblyNullish t = false /\ isAlwaysNullish t = false.
Proof.
  intros H.
  pose proof (never_not_union t H) as Hu.
  pose proof (never_not_intersection t H) as Hi.
  unfold isPossiblyTruthy, isPossiblyFalsy, isPossiblyNullish, isAlwaysNullish.
  rewrite unionTypeParts_not_union by exact Hu.
  cbn [map flat_map existsb forallb app].
  unfold tsutils.intersectionTypeParts. rewrite Hi.
  cbn [map flat_map existsb forallb app filter].
  unfold isNullishType, tsutils.isFalsyType, isTruthyLiteral,
    tsutils.isTrueLiteralType, tsutils.isFalseLiteralType,
    tsutils.isBooleanLiteralType, tsutils.isTypeFlagSet, isLiteral_method.
  rewrite !isTypeFlagSet_not_union by exact Hu.
  unfold isNeverType in H. rewrite H. eval_flags.
  cbn [filter negb andb orb existsb forallb].
  rewrite ?isTypeFlagSet_not_union by exact Hu.
  rewrite ?H. eval_flags. repeat split; reflexivity.
Qed.

(** C2, as the code has it.  [checkNode] reports [never] at the expression
    it ends up at when that expression has the uninhabited type and is not
    an array or tuple index; [checkNodeForNullish] reports [never] on every
    expression of the uninhabited type.  The verdict is [never] although the
    type counts as always truthy and never nullish. *)
Theorem never_verdict_takes_precedence
  (ctx : RuleContext) (node : Expression) (isUnaryNotArgument : bool) :
  (isNeverType (typeAt ctx (checkNodeSite node)) ->
   isArrayIndexExpression ctx (checkNodeSite node) = false ->
   checkNode ctx node isUnaryNotArgument
   = [report (checkNodeSite node) never]
   /\ isPossiblyFalsy (typeAt ctx (checkNodeSite node)) = false)
  /\ (isNeverType (typeAt ctx node) ->
      checkNodeForNullish ctx node = [report node never]
      /\ isPossiblyNullish (typeAt ctx node) = false).
Proof.
  split.
  - intros H Hidx. split; [|now apply never_classification].
    destruct (checkNode_at_site ctx node isUnaryNotArgument) as [negated ->].
    rewrite Hidx. unfold checkNode_report.
    rewrite (never_not_escape _ H).
    rewrite isTypeFlagSet_not_union by now apply never_not_union.
    unfold isNeverType in H. now rewrite H.
  - intros H. split; [|now apply never_classification].
    unfold checkNodeForNullish.
    rewrite !isTypeFlagSet_not_union by now apply never_not_union.
    unfold isNeverType in H. now rewrite H.
Qed.

Lemma never_verdict_takes_precedence_witness :
  checkNode Sites.escapeContext (UnaryExpression "!" (Identifier "n")) false
  = [report (Identifier "n") never]
  /\ checkNodeForNullish Sites.escapeContext (Identifier "n")
     = [report (Identifier "n") never].
Proof.
  split.
  - apply (never_verdict_takes_precedence Sites.escapeContext
             (UnaryExpression "!" (Identifier "n")) false); reflexivity.
  - apply (never_verdict_takes_precedence Sites.escapeContext
             (Identifier "n") false); reflexivity.
Defined.

(** C2 as stated fails on an array element: [arr[0]] with [arr : never[]]
    has the uninhabited type and [checkNode] reports nothing. *)
Lemma checkNode_never_element_is_skipped :
  isNeverType (typeAt Sites.neverElementContext Sites.neverElement)
  /\ checkNode Sites.neverElementContext Sites.neverElement false = [].
Proof. split; reflexivity. Qed.

(** ** Double negation *)

Lemma checkNode_double_negation
  (ctx : RuleContext) (e : Expression) (isUnaryNotArgument : bool) :
  checkNode ctx (UnaryExpression "!" (UnaryExpression "!" e))
    isUnaryNotArgument
  = checkNode ctx e true.
Proof. reflexivity. Qed.

(** C3 at its failing input: on [!!o] with [o] of an object type,
    [checkNode] reports [o] as always falsy, and on [o] itself as always
    truthy. *)
Theorem checkNode_double_negation_swaps_labels :
  checkNode Sites.objectContext Sites.doublyNegatedObject false
  = [report (Identifier "o") alwaysFalsy]
  /\ checkNode Sites.objectContext (Identifier "o") false
     = [report (Identifier "o") alwaysTruthy].
Proof. split; reflexivity. Qed.

(** ** Possibly falsy *)

Lemma existsb_filter {A : Type} (f p : A -> bool) (l : list A) :
  existsb f (filter p l) = existsb (fun x => p x && f x) l.
Proof.
  induction l as [|x l IH]; [reflexivity|]. cbn.
  destruct (p x); cbn; now rewrite IH.
Qed.

Lemma existsb_flat_map {A B : Type} (f : B -> bool) (g : A -> list B)
  (l : list A) :
  existsb f (flat_map g l) = existsb (fun x => existsb f (g x)) l.
Proof.
  induction l as [|x l IH]; [reflexivity|]. cbn.
  now rewrite existsb_app, IH.
Qed.

Lemma existsb_agree {A : Type} (f g : A -> bool) (l : list A) :
  (forall x, In x l -> f x = g x) -> existsb f l = existsb g l.
Proof.
  induction l as [|x l IH]; intros H; [reflexivity|]. cbn.
  rewrite (H x) by now left. rewrite IH; [reflexivity|].
  intros y Hy. apply H. now right.
Qed.

(** [isPossiblyFalsy], union part by union part. *)
Lemma isPossiblyFalsy_by_parts (t : TsType) :
  isPossiblyFalsy t
  = existsb (fun part =>
               existsb (fun member =>
                          negb (isTruthyLiteral member)
                          && isTypeFlagSet member TypeFlags.PossiblyFalsy)
                 (tsutils.intersectionTypeParts part))
      (tsutils.unionTypeParts t).
Proof.
  unfold isPossiblyFalsy. now rewrite existsb_filter, existsb_flat_map.
Qed.

Lemma isTruthyLiteral_spec_agrees (member : TsType) :
  isBigIntValue member = false ->
  isTruthyLiteral member = isTruthyLiteral_spec member.
Proof.
  unfold isBigIntValue, isTruthyLiteral, isTruthyLiteral_spec, valueIsTruthy.
  destruct (value member) as [[s|n|neg digits]|]; intros H;
    try reflexivity; discriminate.
Qed.

(** Away from bigint literals the code and the reference definition of
    possibly falsy agree. *)
Lemma isPossiblyFalsy_spec_agrees (t : TsType) :
  (forall member, In member (intersectionMembers t) ->
                  isBigIntValue member = false) ->
  isPossiblyFalsy t = isPossiblyFalsy_spec t.
Proof.
  intros Hmem. rewrite isPossiblyFalsy_by_parts. unfold isPossiblyFalsy_spec.
  unfold intersectionMembers in Hmem.
  induction (tsutils.unionTypeParts t) as [|part parts IH]; [reflexivity|].
  cbn [existsb]. rewrite IH.
  - f_equal. apply existsb_agree.
    intros member Hin. rewrite isTruthyLiteral_spec_agrees; [reflexivity|].
    apply Hmem. cbn. apply in_or_app. now left.
  - intros member Hin. apply Hmem. cbn. apply in_or_app. now right.
Qed.

(** C6 at its failing input, the type of the literal [0n]: the code discards
    it as a truthy literal, its [value] being an object, and answers that
    the type is not possibly falsy; by the reference definition it is. *)
Theorem isPossiblyFalsy_zero_bigint :
  isTruthyLiteral Samples.zeroBigIntLiteral = true
  /\ isPossiblyFalsy Samples.zeroBigIntLiteral = false
  /\ isPossiblyFalsy_spec Samples.zeroBigIntLiteral = true.
Proof. repeat split; reflexivity. Qed.

(** ** Binary comparisons *)

Lemma isTypeFlagSet_lor (t : TsType) (m1 m2 : Z) :
  isTypeFlagSet t (Z.lor m1 m2) = isTypeFlagSet t m1 || isTypeFlagSet t m2.
Proof. unfold isTypeFlagSet. apply hasFlags_lor_r. Qed.

Lemma isLooseOperator_eqb (operator : string) :
  String.eqb operator "==" || String.eqb operator "!=" = true
  <-> isLooseOperator operator.
Proof.
  unfold isLooseOperator. rewrite orb_true_iff, !String.eqb_eq. tauto.
Qed.

Lemma isComparable_cannotBe (operator : string) (type : TsType) (flag : Z) :
  isComparable operator type flag = false <-> cannotBe operator type flag.
Proof.
  unfold isComparable, cannotBe, carriesNoneOf.
  pose proof (isLooseOperator_eqb operator) as Hloose.
  destruct (String.eqb operator "==" || String.eqb operator "!=").
  - rewrite !(isTypeFlagSet_lor type (Z.lor flag _)), (isTypeFlagSet_lor type flag).
    rewrite !orb_false_iff. split.
    + intros [[H1 H2] H3]. auto.
    + intros [H1 [H2 H3]]. repeat split; auto. apply H3, Hloose. reflexivity.
  - rewrite (isTypeFlagSet_lor type flag), orb_false_iff. split.
    + intros [H1 H2]. repeat split; auto.
      intros Hl. apply Hloose in Hl. discriminate.
    + intros [H1 [H2 _]]. auto.
Qed.

Lemma BOOL_OPERATORS_has_In (operator : string) :
  In operator ["<"; ">"; "<="; ">="; "=="; "==="; "!="; "!=="] ->
  BOOL_OPERATORS_has operator = true.
Proof.
  intros H. unfold BOOL_OPERATORS_has, BOOL_OPERATORS.
  apply existsb_exists. exists operator. split; [exact H|apply String.eqb_refl].
Qed.



(** ** Loop conditions *)

(** C9, as the code has it.  With the option on, a loop whose test has the
    literal type [true] gets no report for its test; a test of any other
    type is checked by [checkNode] as with the option off, and when the
    expression [checkNode] ends up at has a constant type (never truthy or
    never falsy, no Any, Unknown or type variable) and is not an array or
    tuple index, a report is made. *)
Theorem constant_true_loop_is_exempt
  (ctx : RuleContext) (loop : Statement) (test : Expression) :
  allowConstantLoopConditions (options ctx) = true ->
  loopTest loop = Some test ->
  (tsutils.isTrueLiteralType (typeAt ctx test) = true ->
   checkIfLoopIsNecessaryConditional ctx loop = [])
  /\ (tsutils.isTrueLiteralType (typeAt ctx test) = false ->
      checkIfLoopIsNecessaryConditional ctx loop = checkNode ctx test false
      /\ (isArrayIndexExpression ctx (checkNodeSite test) = false ->
          involvesAnyUnknownOrTypeVariable (typeAt ctx (checkNodeSite test))
          = false ->
          isConstantCondition (typeAt ctx (checkNodeSite test)) = true ->
          checkIfLoopIsNecessaryConditional ctx loop <> [])).
Proof.
  intros Hopt Htest. unfold checkIfLoopIsNecessaryConditional.
  rewrite Htest, Hopt. cbn [andb]. split; intros Htrue; rewrite Htrue;
    [reflexivity|].
  split; [reflexivity|]. intros Hidx Hesc Hconst.
  destruct (checkNode_at_site ctx test false) as [negated ->].
  rewrite Hidx. unfold checkNode_report. rewrite Hesc.
  unfold isConstantCondition in Hconst.
  destruct (isTypeFlagSet _ TypeFlags.Never); [discriminate|].
  destruct (negb (isPossiblyTruthy _)); [discriminate|].
  cbn [orb] in Hconst. rewrite Hconst. discriminate.
Qed.

Lemma constant_true_loop_is_exempt_witness :
  checkIfLoopIsNecessaryConditional LoopSites.constantLoopContext
    LoopSites.whileTrue = []
  /\ checkIfLoopIsNecessaryConditional LoopSites.constantLoopContext
       LoopSites.doWhileFalse
     = checkNode LoopSites.constantLoopContext (Literal "false") false
  /\ checkIfLoopIsNecessaryConditional LoopSites.constantLoopContext
       LoopSites.whileOne <> [].
Proof.
  split; [|split].
  - apply (constant_true_loop_is_exempt LoopSites.constantLoopContext
             LoopSites.whileTrue (Literal "true")); reflexivity.
  - apply (constant_true_loop_is_exempt LoopSites.constantLoopContext
             LoopSites.doWhileFalse (Literal "false")); reflexivity.
  - apply (constant_true_loop_is_exempt LoopSites.constantLoopContext
             LoopSites.whileOne (Literal "1")); reflexivity.
Defined.

(** C9 as stated fails on the other constant conditions: with the option
    on, the test of [while (1) {}] is reported as always truthy and the test
    of [do {} while (false)] as always falsy. *)
Lemma constant_loop_conditions_still_reported :
  allowConstantLoopConditions (options LoopSites.constantLoopContext) = true
  /\ isConstantCondition
       (typeAt LoopSites.constantLoopContext (Literal "1")) = true
  /\ checkIfLoopIsNecessaryConditional LoopSites.constantLoopContext
       LoopSites.whileOne
     = [report (Literal "1") alwaysTruthy]
  /\ isConstantCondition
       (typeAt LoopSites.constantLoopContext (Literal "false")) = true
  /\ checkIfLoopIsNecessaryConditional LoopSites.constantLoopContext
       LoopSites.doWhileFalse
     = [report (Literal "false") alwaysFalsy].
Proof. repeat split; reflexivity. Qed.

(** ** Nullish coalescing in a condition *)



(** ** Optional chains *)

Section OptionalChains.
Variable ctx : RuleContext.

Lemma chainSteps_not_member_or_call (node : Expression) :
  isMemberOrCall node = false -> chainSteps node = [].
Proof. destruct node; cbn; congruence. Qed.

(** The search of the source finds exactly the optional array-index steps
    of the chain. *)
Lemma optionChainContainsOptionArrayIndex_chainSteps (node : Expression) :
  optionChainContainsOptionArrayIndex ctx node
  = chainHasOptionalArrayIndexStep ctx node.
Proof.
  unfold chainHasOptionalArrayIndexStep.
  induction node
    as [ | | | | | |
         | base IHbase property _ computed optional
         | base IHbase arguments optional
         | | | | ];
    try reflexivity;
    cbn [optionChainContainsOptionArrayIndex chainSteps existsb];
    unfold isOptionalArrayIndexStep at 1; cbn [chainStep];
    (destruct (optional && isArrayIndexExpression ctx base); [reflexivity|]);
    cbn [orb]; rewrite <- IHbase;
    (destruct (isMemberOrCall base) eqn:E; [reflexivity|]);
    destruct base; cbn in E; try discriminate; reflexivity.
Qed.

Lemma infected_chain_is_member_or_call (node : Expression) :
  chainHasOptionalArrayIndexStep ctx node = true ->
  isMemberOrCall node = true.
Proof.
  destruct (isMemberOrCall node) eqn:E; [reflexivity|].
  unfold chainHasOptionalArrayIndexStep.
  now rewrite chainSteps_not_member_or_call.
Qed.

Lemma checkOptionalChain_infected
  (node beforeOperator : Expression) (text : string) :
  chainHasOptionalArrayIndexStep ctx node = true ->
  checkOptionalChain ctx node beforeOperator text = Reported [].
Proof.
  intros H. rewrite <- optionChainContainsOptionArrayIndex_chainSteps in H.
  unfold checkOptionalChain. destruct (chainStep node) as [[optional base]|];
    [|reflexivity].
  destruct optional; [|reflexivity]. cbn [negb]. now rewrite H.
Qed.
End OptionalChains.




Section OptionalSteps.
Variable ctx : RuleContext.

(** The tracer answers "inherited" for [object.name] when the object has a
    nullable union type no member of which gives [name] a nullable type. *)
Lemma nullability_inherited_from_object
  (object : Expression) (name : string) (optional : bool) :
  isUnion (typeAt ctx object) = true ->
  noMemberYieldsNullable ctx (typeAt ctx object) name ->
  isNullableType (typeAt ctx object) = true ->
  isMemberExpressionNullableOriginFromObject ctx
    (MemberExpression object (Identifier name) false optional) = true.
Proof.
  intros Hu Hmem Hn. cbn [isMemberExpressionNullableOriginFromObject].
  rewrite Hu, Hn, andb_true_r. apply negb_true_iff.
  apply not_true_is_false. intros H. apply existsb_exists in H.
  destruct H as [member [Hin H]]. specialize (Hmem member Hin).
  destruct (getTypeOfPropertyOfName (checker ctx) member name).
  - congruence.
  - now rewrite Hmem in H.
Qed.

Lemma isOptionableExpression_own (base : Expression) :
  isMemberExpressionNullableOriginFromObject ctx base = false ->
  isCallExpressionNullableOriginFromCallee ctx base = false ->
  isOptionableExpression ctx base
  = isTypeFlagSet (typeAt ctx base) (Z.lor TypeFlags.Any TypeFlags.Unknown)
    || (isNullableType (typeAt ctx base)
        || isTypeFlagSet (typeAt ctx base) TypeFlags.Void).
Proof.
  intros Hm Hc. unfold isOptionableExpression. rewrite Hm, Hc.
  cbn [negb].
  now destruct (AST_NODE_TYPES.eqb (nodeType base)
                  AST_NODE_TYPES.MemberExpression),
    (AST_NODE_TYPES.eqb (nodeType base) AST_NODE_TYPES.CallExpression).
Qed.

Lemma isOptionableExpression_inherited (base : Expression) :
  isMemberExpressionNullableOriginFromObject ctx base = true ->
  isOptionableExpression ctx base
  = isTypeFlagSet (typeAt ctx base) (Z.lor TypeFlags.Any TypeFlags.Unknown).
Proof.
  intros Hm. unfold isOptionableExpression.
  assert (E : AST_NODE_TYPES.eqb (nodeType base)
                AST_NODE_TYPES.MemberExpression = true).
  { destruct base; cbn in Hm; try discriminate; reflexivity. }
  rewrite E, Hm. cbn [negb andb]. apply orb_false_r.
Qed.

Lemma checkOptionalMemberExpression_step
  (base property : Expression) (computed : bool) :
  let step := MemberExpression base property computed true in
  checkOptionalMemberExpression ctx step
  = if chainHasOptionalArrayIndexStep ctx step then Reported []
    else if isOptionableExpression ctx base then Reported []
    else match getTokenAfter ctx base isQuestionDot with
         | None => Thrown "Expected to find a operator"
         | Some questionDot =>
             Reported [redundantOptionalStep step questionDot
                         (if computed then "" else ".")]
         end.
Proof.
  intros step. unfold checkOptionalMemberExpression, checkOptionalChain, step.
  cbn [chainStep negb].
  now rewrite optionChainContainsOptionArrayIndex_chainSteps.
Qed.
End OptionalSteps.




(** ** Each occurrence is checked once *)

Lemma timesChecked_app (q : Path) (l1 l2 : list Path) :
  timesChecked q (l1 ++ l2) = (timesChecked q l1 + timesChecked q l2)%nat.
Proof. apply count_occ_app. Qed.

Lemma timesChecked_map_cons (q : Path) (j : nat) (l : list Path) :
  timesChecked q (map (cons j) l)
  = match q with
    | [] => 0%nat
    | i :: q' => if Nat.eqb i j then timesChecked q' l else 0%nat
    end.
Proof.
  unfold timesChecked. induction l as [|p l IH]; cbn [map count_occ].
  - destruct q as [|i q']; [reflexivity|]. now destruct (Nat.eqb i j).
  - destruct (Path_eq_dec (j :: p) q) as [E|E].
    + subst q. rewrite IH, Nat.eqb_refl.
      destruct (Path_eq_dec p p); [reflexivity|contradiction].
    + rewrite IH. destruct q as [|i q']; [reflexivity|].
      destruct (Nat.eqb i j) eqn:Eij; [|reflexivity].
      apply Nat.eqb_eq in Eij. subst i.
      destruct (Path_eq_dec p q'); [subst; contradiction|reflexivity].
Qed.

Lemma timesChecked_root (q : Path) (l : list Path) :
  timesChecked q ([] :: l)
  = (match q with [] => 1 | _ => 0 end + timesChecked q l)%nat.
Proof.
  unfold timesChecked. cbn [count_occ].
  destruct (Path_eq_dec [] q) as [E|E]; destruct q; try reflexivity;
    congruence.
Qed.

Lemma occurrencesOf_app (a b : list (Path * ClassifierCall)) :
  occurrencesOf (a ++ b) = occurrencesOf a ++ occurrencesOf b.
Proof. apply flat_map_app. Qed.

Lemma occurrencesOf_under (i : nat) (calls : list (Path * ClassifierCall)) :
  occurrencesOf (under i calls) = map (cons i) (occurrencesOf calls).
Proof.
  unfold occurrencesOf, under. induction calls as [|[p c] calls IH];
    [reflexivity|].
  cbn [map flat_map]. rewrite IH, map_app. f_equal.
  unfold checkedBy. cbn [fst snd]. destruct c; [|reflexivity].
  rewrite map_map. reflexivity.
Qed.

Lemma occurrencesOf_truthiness (path : Path) (e : Expression) :
  occurrencesOf [(path, Truthiness e)] = map (app path) (checkNodeVisits e).
Proof. unfold occurrencesOf. cbn. apply app_nil_r. Qed.

Lemma occurrencesOf_truthiness_child (j : nat) (path : Path) (e : Expression) :
  occurrencesOf [(j :: path, Truthiness e)]
  = map (cons j) (occurrencesOf [(path, Truthiness e)]).
Proof. rewrite !occurrencesOf_truthiness, map_map. reflexivity. Qed.

Lemma occurrencesOf_truthiness_here (e : Expression) :
  occurrencesOf [([], Truthiness e)] = checkNodeVisits e.
Proof. rewrite occurrencesOf_truthiness. apply map_id. Qed.

Lemma occurrencesOf_nullishness (j : nat) (e : Expression) :
  occurrencesOf [([j], Nullishness e)] = map (cons j) [[]].
Proof. reflexivity. Qed.

(** The occurrences [checkNode] runs on are distinct. *)
Lemma checkNodeVisits_once (e : Expression) (q : Path) :
  (timesChecked q (checkNodeVisits e) <= 1)%nat.
Proof.
  revert q. induction e; intros q; cbn [checkNodeVisits];
    rewrite timesChecked_root;
    try (destruct q; cbn; lia).
  - destruct (String.eqb operator "!").
    + rewrite timesChecked_map_cons. destruct q as [|i q]; [lia|].
      destruct (Nat.eqb i 0); [apply IHe|lia].
    + destruct q; cbn; lia.
  - destruct (negb (String.eqb operator "??")).
    + rewrite timesChecked_map_cons. destruct q as [|i q]; [lia|].
      destruct (Nat.eqb i 1); [apply IHe2|lia].
    + destruct q; cbn; lia.
Qed.

Lemma nonRoot_app (a b : list (Path * ClassifierCall)) :
  nonRoot a -> nonRoot b -> nonRoot (a ++ b).
Proof. intros Ha Hb. apply Forall_app. now split. Qed.

Lemma nonRoot_under (i : nat) (calls : list (Path * ClassifierCall)) :
  nonRoot (under i calls).
Proof.
  unfold nonRoot, under. apply Forall_forall. intros call Hin.
  apply in_map_iff in Hin as [call' [<- _]]. discriminate.
Qed.

Lemma nonRoot_indexed {A : Type} (f : A -> list (Path * ClassifierCall))
  (i : nat) (l : list A) :
  nonRoot (indexed f i l).
Proof.
  revert i. induction l as [|a l IH]; intros i; cbn [indexed].
  - constructor.
  - apply nonRoot_app; [apply nonRoot_under|apply IH].
Qed.

Lemma nonRoot_optionalCalls {A : Type}
  (f : A -> list (Path * ClassifierCall)) (i : nat) (child : option A) :
  nonRoot (optionalCalls f i child).
Proof.
  destruct child; cbn [optionalCalls]; [apply nonRoot_under|constructor].
Qed.

Ltac break_match :=
  repeat match goal with
  | |- context [if ?c then _ else _] => destruct c
  | |- context [match ?c with Some _ => _ | None => _ end] => destruct c
  | |- context [match ?c with [] => _ | _ :: _ => _ end] => destruct c
  | |- context [match ?c with (_, _) => _ end] => destruct c
  end.

Lemma nonRoot_expressionListenerCalls (ctx : RuleContext) (e : Expression) :
  nonRoot (expressionListenerCalls ctx e).
Proof.
  unfold nonRoot.
  destruct e; cbn [expressionListenerCalls]; break_match;
    repeat constructor; discriminate.
Qed.

Lemma nonRoot_expressionCalls (ctx : RuleContext) (e : Expression) :
  nonRoot (expressionCalls ctx e).
Proof.
  destruct e; cbn [expressionCalls];
    (apply nonRoot_app; [apply nonRoot_expressionListenerCalls|]);
    repeat first [ apply nonRoot_app | apply nonRoot_under
                 | apply nonRoot_indexed | constructor ].
Qed.

Lemma nonRoot_not_checked (calls : list (Path * ClassifierCall)) :
  nonRoot calls -> timesChecked [] (occurrencesOf calls) = 0%nat.
Proof.
  unfold nonRoot, occurrencesOf. induction 1 as [|[p c] calls Hp _ IH];
    [reflexivity|].
  cbn [flat_map]. rewrite timesChecked_app, IH, Nat.add_0_r.
  cbn [fst] in Hp. destruct p as [|j p]; [contradiction|].
  unfold checkedBy. cbn [fst snd]. destruct c as [e|e].
  - replace (map (app (j :: p)) (checkNodeVisits e))
      with (map (cons j) (map (app p) (checkNodeVisits e)))
      by (rewrite map_map; reflexivity).
    now rewrite timesChecked_map_cons.
  - reflexivity.
Qed.

Lemma occurrencesOf_nil : occurrencesOf [] = [].
Proof. reflexivity. Qed.

Lemma timesChecked_nil (q : Path) : timesChecked q [] = 0%nat.
Proof. reflexivity. Qed.

Ltac count :=
  repeat first
    [ rewrite occurrencesOf_app | rewrite timesChecked_app
    | rewrite occurrencesOf_under | rewrite occurrencesOf_truthiness_child
    | rewrite occurrencesOf_truthiness_here | rewrite occurrencesOf_nullishness
    | rewrite occurrencesOf_nil | rewrite timesChecked_map_cons
    | rewrite timesChecked_root | rewrite timesChecked_nil ].

Section CheckedOnce.
Variable ctx : RuleContext.

(** An occurrence [checkNode] runs on below a node is not the target of a
    listener met in the walk of that node. *)
Lemma visited_not_called (e : Expression) (q : Path) :
  (1 <= timesChecked q (checkNodeVisits e))%nat ->
  timesChecked q (occurrencesOf (expressionCalls ctx e)) = 0%nat.
Proof.
  assert (Hroot : forall e' q',
             (1 <= timesChecked q' [[]])%nat ->
             timesChecked q' (occurrencesOf (expressionCalls ctx e')) = 0%nat).
  { intros e' q' H. destruct q' as [|i q']; [|cbn in H; lia].
    apply nonRoot_not_checked, nonRoot_expressionCalls. }
  revert q.
  induction e as [ | | operator a IHa | operator l _ r IHr | | | | | | | | | ];
    intros q; cbn [checkNodeVisits]; try apply Hroot.
  - destruct (String.eqb operator "!"); [|apply Hroot].
    intros H. destruct q as [|i q].
    { apply nonRoot_not_checked, nonRoot_expressionCalls. }
    revert H. cbn [expressionCalls expressionListenerCalls app]. count.
    destruct (Nat.eqb i 0); [apply IHa|lia].
  - destruct (String.eqb operator "??") eqn:E; cbn [negb]; [apply Hroot|].
    intros H. destruct q as [|i q].
    { apply nonRoot_not_checked, nonRoot_expressionCalls. }
    revert H. cbn [expressionCalls expressionListenerCalls]. rewrite E. count.
    destruct i as [|[|i]]; cbn [Nat.eqb]; try lia.
    intros H. rewrite (IHr q) by lia. lia.
Qed.

(** The occurrences of a call of [checkNode] and those of the calls met in
    the walk of its argument, together. *)
Lemma visits_and_calls_once (e : Expression) :
  (forall q, timesChecked q (occurrencesOf (expressionCalls ctx e)) <= 1)%nat ->
  forall q,
    (timesChecked q (checkNodeVisits e)
     + timesChecked q (occurrencesOf (expressionCalls ctx e)) <= 1)%nat.
Proof.
  intros H q. pose proof (checkNodeVisits_once e q) as Hv.
  pose proof (visited_not_called e q) as Hn. specialize (H q).
  destruct (timesChecked q (checkNodeVisits e)) as [|n]; [lia|].
  rewrite Hn by lia. lia.
Qed.
End CheckedOnce.

Lemma indexed_below {A : Type} (f : A -> list (Path * ClassifierCall))
  (i j : nat) (q : Path) (l : list A) :
  (j < i)%nat ->
  timesChecked (j :: q) (occurrencesOf (indexed f i l)) = 0%nat.
Proof.
  revert i. induction l as [|a l IH]; intros i Hlt; cbn [indexed];
    [reflexivity|].
  count. rewrite IH by lia.
  destruct (Nat.eqb j i) eqn:E; [apply Nat.eqb_eq in E; lia|reflexivity].
Qed.

Lemma once_indexed {A : Type} (f : A -> list (Path * ClassifierCall))
  (i : nat) (l : list A) :
  Forall (fun a => once (f a)) l -> once (indexed f i l).
Proof.
  intros H. revert i. induction H as [|a l Ha _ IH]; intros i q;
    cbn [indexed]; [cbn; lia|].
  count. destruct q as [|j q].
  - rewrite nonRoot_not_checked by apply nonRoot_indexed. lia.
  - destruct (Nat.eqb j i) eqn:E.
    + apply Nat.eqb_eq in E. subst j.
      rewrite indexed_below by lia. specialize (Ha q). lia.
    + apply IH.
Qed.

Section WalkOnce.
Variable ctx : RuleContext.

(** The condition of an inline callback and the calls met in the walk of
    the callback, together. *)
Lemma callback_condition_once
  (callback condition : Expression) (path : Path) :
  once (expressionCalls ctx callback) ->
  inlineCallbackConditionAt callback = Some (path, condition) ->
  forall q,
    (timesChecked q (occurrencesOf [(path, Truthiness condition)])
     + timesChecked q (occurrencesOf (expressionCalls ctx callback))
     <= 1)%nat.
Proof.
  intros Honce Hat q.
  assert (Hblock : forall body wrap,
    singleReturnArgumentAt body = Some (path, condition) ->
    expressionCalls ctx callback
    = wrap ++ under 0 (indexed (statementCalls ctx) 0 body) ->
    wrap = [] ->
    (timesChecked q (occurrencesOf [(path, Truthiness condition)])
     + timesChecked q (occurrencesOf (expressionCalls ctx callback))
     <= 1)%nat).
  { intros body wrap Hret Hcalls ->. cbn [app] in Hcalls.
    destruct body as [|[|[argument|]| | | | |] [|]]; try discriminate Hret.
    cbn in Hret. injection Hret as <- <-.
    assert (Harg : once (expressionCalls ctx argument)).
    { intros q'. specialize (Honce (0 :: 0 :: 0 :: q')%nat).
      rewrite Hcalls in Honce. revert Honce.
      cbn [indexed statementCalls statementListenerCalls optionalCalls app].
      rewrite app_nil_r. do 3 (count; cbn [Nat.eqb]). lia. }
    rewrite Hcalls.
    cbn [indexed statementCalls statementListenerCalls optionalCalls app].
    rewrite app_nil_r.
    do 3 (count; destruct q as [|[|?] q]; cbn [Nat.eqb]; try lia).
    count. apply (visits_and_calls_once ctx argument Harg). }
  destruct callback as [ | | | | | | | | | | | [body|body] | body ];
    try discriminate Hat; cbn [inlineCallbackConditionAt] in Hat.
  - injection Hat as <- <-.
    assert (Hbody : once (expressionCalls ctx body)).
    { intros q'. specialize (Honce (0 :: q')%nat). revert Honce.
      cbn [expressionCalls expressionListenerCalls arrowBodyCalls app].
      count. cbn [Nat.eqb]. lia. }
    cbn [expressionCalls expressionListenerCalls arrowBodyCalls app].
    count. destruct q as [|[|i] q]; cbn [Nat.eqb]; try lia.
    apply (visits_and_calls_once ctx body Hbody).
  - apply (Hblock body []); [exact Hat|reflexivity|reflexivity].
  - apply (Hblock body []); [exact Hat|reflexivity|reflexivity].
Qed.
End WalkOnce.

(** The root of a tree, where a listener of the parent calls
    [checkNodeForNullish], and the calls met in the walk of the tree. *)
Lemma root_and_calls_once (ctx : RuleContext) (e : Expression) :
  once (expressionCalls ctx e) ->
  forall q,
    (timesChecked q [[]]
     + timesChecked q (occurrencesOf (expressionCalls ctx e)) <= 1)%nat.
Proof.
  intros H q. destruct q as [|i q].
  - rewrite nonRoot_not_checked by apply nonRoot_expressionCalls. cbn. lia.
  - specialize (H (i :: q)). cbn. cbn in H. lia.
Qed.

Ltac count_calls :=
  repeat first
    [ rewrite occurrencesOf_app | rewrite timesChecked_app
    | rewrite occurrencesOf_under | rewrite occurrencesOf_truthiness_child
    | rewrite occurrencesOf_truthiness_here | rewrite occurrencesOf_nullishness
    | rewrite occurrencesOf_nil | rewrite timesChecked_map_cons
    | rewrite timesChecked_nil ].

Ltac use_children q :=
  repeat match goal with
  | H : once (expressionCalls ?ctx ?e) |- _ =>
      pose proof (visits_and_calls_once ctx e H q);
      pose proof (root_and_calls_once ctx e H q);
      pose proof (H q); clear H
  | H : once _ |- _ => pose proof (H q); clear H
  end.

Ltac once_case :=
  intros;
  repeat match goal with
  | H : onOption _ ?o |- _ => destruct o; cbn [onOption] in H
  end;
  let q := fresh "q" in
  intros q;
  cbn [expressionCalls expressionListenerCalls arrowBodyCalls statementCalls
       statementListenerCalls optionalCalls];
  break_match; count_calls;
  destruct q as [|[|[|[|[|?]]]] q]; cbn [Nat.eqb]; try lia;
  use_children q; lia.

Section WalkChecksOnce.
Variable ctx : RuleContext.

Lemma once_call_expression
  (callee : Expression) (arguments : list Expression) (optional : bool) :
  once (expressionCalls ctx callee) ->
  Forall (fun a => once (expressionCalls ctx a)) arguments ->
  once (expressionCalls ctx (CallExpression callee arguments optional)).
Proof.
  intros Hcallee Hargs q.
  pose proof (once_indexed (expressionCalls ctx) 1 arguments Hargs q) as Hall.
  cbn [expressionCalls expressionListenerCalls].
  destruct arguments as [|callback rest].
  { revert Hall. cbn [indexed app]. count.
    destruct q as [|[|?] q]; cbn [Nat.eqb]; try lia.
    specialize (Hcallee q). lia. }
  assert (Hrest : once (indexed (expressionCalls ctx) 2 rest)).
  { apply once_indexed. now inversion Hargs. }
  assert (Hcb : once (expressionCalls ctx callback)) by now inversion Hargs.
  cbn [indexed].
  destruct (isArrayPredicateFunction ctx _);
    [destruct (inlineCallbackConditionAt callback) as [[path condition]|]
       eqn:Hat|];
    count;
    (destruct q as [|[|[|i]] q]; cbn [Nat.eqb];
     [ rewrite nonRoot_not_checked by apply nonRoot_indexed; lia
     | rewrite indexed_below by lia; specialize (Hcallee q); lia
     | rewrite indexed_below by lia
     | specialize (Hrest (S (S i) :: q)); lia ]).
  - pose proof (callback_condition_once ctx callback condition path Hcb Hat q).
    lia.
  - specialize (Hcb q). lia.
  - specialize (Hcb q). lia.
Qed.

(** In the walk of a tree no occurrence is run on twice. *)
Lemma walk_checks_once :
  (forall e, once (expressionCalls ctx e))
  /\ (forall b, once (arrowBodyCalls ctx b))
  /\ (forall s, once (statementCalls ctx s)).
Proof.
  set (P := fun e => once (expressionCalls ctx e)).
  set (Q := fun b => once (arrowBodyCalls ctx b)).
  set (R := fun s => once (statementCalls ctx s)).
  assert (HI : forall name, P (Identifier name)) by (subst P; once_case).
  assert (HL : forall raw, P (Literal raw)) by (subst P; once_case).
  assert (HU : forall operator argument,
             P argument -> P (UnaryExpression operator argument))
    by (subst P; cbv beta; once_case).
  assert (HLo : forall operator l r,
             P l -> P r -> P (LogicalExpression operator l r))
    by (subst P; cbv beta; once_case).
  assert (HB : forall operator l r,
             P l -> P r -> P (BinaryExpression operator l r))
    by (subst P; cbv beta; once_case).
  assert (HC : forall t c a,
             P t -> P c -> P a -> P (ConditionalExpression t c a))
    by (subst P; cbv beta; once_case).
  assert (HA : forall operator l r,
             P l -> P r -> P (AssignmentExpression operator l r))
    by (subst P; cbv beta; once_case).
  assert (HM : forall o p computed optional,
             P o -> P p -> P (MemberExpression o p computed optional))
    by (subst P; cbv beta; once_case).
  assert (HCa : forall callee arguments optional,
             P callee -> Forall P arguments ->
             P (CallExpression callee arguments optional))
    by (subst P; cbv beta; apply once_call_expression).
  assert (HCh : forall e, P e -> P (ChainExpression e))
    by (subst P; cbv beta; once_case).
  assert (HN : forall e, P e -> P (TSNonNullExpression e))
    by (subst P; cbv beta; once_case).
  assert (HAr : forall body, Q body -> P (ArrowFunctionExpression body))
    by (subst P Q; cbv beta; once_case).
  assert (HF : forall body, Forall R body -> P (FunctionExpression body)).
  { subst P R. cbv beta. intros body H q.
    pose proof (once_indexed (statementCalls ctx) 0 body H) as Hb.
    cbn [expressionCalls expressionListenerCalls app]. count.
    destruct q as [|[|?] q]; cbn [Nat.eqb]; try lia. apply Hb. }
  assert (HE : forall e, P e -> Q (ExpressionBody e))
    by (subst P Q; cbv beta; intros e H; exact H).
  assert (HBb : forall body, Forall R body -> Q (BlockBody body)).
  { subst Q R. cbv beta. intros body H. cbn [arrowBodyCalls].
    now apply once_indexed. }
  assert (HEs : forall e, P e -> R (ExpressionStatement e))
    by (subst P R; cbv beta; once_case).
  assert (HR : forall argument,
             onOption P argument -> R (ReturnStatement argument))
    by (subst P R; cbv beta; once_case).
  assert (HBl : forall body, Forall R body -> R (BlockStatement body)).
  { subst R. cbv beta. intros body H.
    cbn [statementCalls statementListenerCalls app]. now apply once_indexed. }
  assert (HIf : forall test consequent alternate,
             P test -> R consequent -> onOption R alternate ->
             R (IfStatement test consequent alternate))
    by (subst P R; cbv beta; once_case).
  assert (HW : forall test body,
             P test -> R body -> R (WhileStatement test body))
    by (subst P R; cbv beta; once_case).
  assert (HD : forall body test,
             R body -> P test -> R (DoWhileStatement body test))
    by (subst P R; cbv beta; once_case).
  assert (HFo : forall init test update body,
             onOption P init -> onOption P test -> onOption P update ->
             R body -> R (ForStatement init test update body))
    by (subst P R; cbv beta; once_case).
  split; [|split].
  - intros e. apply (Expression_tree_ind P Q R); assumption.
  - intros b. apply (ArrowBody_tree_ind P Q R); assumption.
  - intros s. apply (Statement_tree_ind P Q R); assumption.
Qed.
End WalkChecksOnce.

(** The reports of [checkNode] are on the expression it ends up at, which
    is the last occurrence it runs on. *)
Lemma checkNode_reports_at_site
  (ctx : RuleContext) (e : Expression) (isUnaryNotArgument : bool)
  (r : Report) :
  In r (checkNode ctx e isUnaryNotArgument) ->
  node r = Some (checkNodeSite e).
Proof.
  destruct (checkNode_at_site ctx e isUnaryNotArgument) as [negated ->].
  destruct (isArrayIndexExpression ctx (checkNodeSite e)); [intros []|].
  unfold checkNode_report.
  destruct (involvesAnyUnknownOrTypeVariable _); [intros []|].
  break_match; cbn; intuition (subst; reflexivity).
Qed.

Lemma checkNodeVisits_reach_site (e : Expression) :
  exists path,
    In path (checkNodeVisits e)
    /\ operandAt e path = Some (checkNodeSite e).
Proof.
  induction e as [ | | operator a IHa | operator l _ r IHr | | | | | | | | | ];
    try (exists []; split; [now left|reflexivity]).
  - cbn [checkNodeVisits checkNodeSite].
    destruct (String.eqb operator "!").
    + destruct IHa as [path [Hin Hat]]. exists (0%nat :: path). split.
      * right. now apply in_map.
      * exact Hat.
    + exists []. split; [now left|reflexivity].
  - cbn [checkNodeVisits checkNodeSite].
    destruct (negb (String.eqb operator "??")).
    + destruct IHr as [path [Hin Hat]]. exists (1%nat :: path). split.
      * right. now apply in_map.
      * exact Hat.
    + exists []. split; [now left|reflexivity].
Qed.

(** The listeners report what their classifier calls report. *)
Lemma inlineCallbackConditionAt_condition (callback : Expression) :
  option_map snd (inlineCallbackConditionAt callback)
  = inlineCallbackCondition callback.
Proof.
  assert (H : forall body,
             option_map snd (singleReturnArgumentAt body)
             = singleReturnArgument body).
  { intros [|[|[argument|]| | | | |] [|]]; reflexivity. }
  destruct callback as [ | | | | | | | | | | | [body|body] | body ];
    try reflexivity; apply H.
Qed.

Lemma statementListeners_calls (ctx : RuleContext) (s : Statement) :
  statementListeners ctx s
  = classifierReports ctx (statementListenerCalls ctx s).
Proof.
  unfold classifierReports.
  destruct s as [ | | | | | |init [test|] update body];
    cbn [statementListeners statementListenerCalls
         checkIfLoopIsNecessaryConditional loopTest];
    try reflexivity;
    try (destruct (allowConstantLoopConditions (options ctx)
                   && tsutils.isTrueLiteralType _));
    cbn [flat_map snd runCall]; now rewrite ?app_nil_r.
Qed.

Lemma expressionListeners_calls (ctx : RuleContext) (e : Expression) :
  match e with
  | AssignmentExpression _ _ _ | ConditionalExpression _ _ _
  | LogicalExpression _ _ _ =>
      expressionListeners ctx e
      = Reported (classifierReports ctx (expressionListenerCalls ctx e))
  | CallExpression _ (callback :: _) _ =>
      isArrayPredicateFunction ctx e = true ->
      inlineCallbackCondition callback <> None ->
      checkCallExpression ctx e
      = classifierReports ctx (expressionListenerCalls ctx e)
  | _ => expressionListenerCalls ctx e = []
  end.
Proof.
  unfold classifierReports.
  destruct e as [ | | | | | | | | callee [|callback rest] optional | | | | ];
    cbn [expressionListeners expressionListenerCalls
         checkAssignmentExpression
         checkLogicalExpressionForUnnecessaryConditionals];
    try reflexivity.
  - destruct (String.eqb operator "??"); cbn; now rewrite app_nil_r.
  - cbn. now rewrite app_nil_r.
  - destruct (existsb _ _); [cbn; now rewrite app_nil_r|].
    destruct (String.eqb operator "??="); cbn; now rewrite ?app_nil_r.
  - intros Hpred Hinline. cbn [checkCallExpression]. rewrite Hpred.
    rewrite <- inlineCallbackConditionAt_condition in *.
    destruct (inlineCallbackConditionAt callback) as [[path condition]|];
      [|contradiction].
    cbn. now rewrite app_nil_r.
Qed.



(** * Further properties of the rule *)

(** ** The shape of the reports *)

Lemma checkNode_report_shape
  (ctx : RuleContext) (e : Expression) (negated : bool) :
  checkNode_report ctx e negated = []
  \/ checkNode_report ctx e negated = [report e never]
  \/ checkNode_report ctx e negated = [report e alwaysTruthy]
  \/ checkNode_report ctx e negated = [report e alwaysFalsy].
Proof.
  unfold checkNode_report.
  destruct (involvesAnyUnknownOrTypeVariable _); [now left|].
  destruct (isTypeFlagSet _ _); [now right; left|].
  destruct (negb (isPossiblyTruthy _)).
  { destruct (negb negated); [now right; right; right|now right; right; left]. }
  destruct (negb (isPossiblyFalsy _)); [|now left].
  destruct (negb negated); [now right; right; left|now right; right; right].
Qed.

(** X1.  [checkNode] makes at most one report; it is a plain report (no
    location, no fix) on the expression [checkNode] ends up at, and its
    message is [never], [alwaysTruthy] or [alwaysFalsy]. *)
Theorem checkNode_reports_at_most_once
  (ctx : RuleContext) (e : Expression) (isUnaryNotArgument : bool) :
  (List.length (checkNode ctx e isUnaryNotArgument) <= 1)%nat
  /\ forall r : Report,
       In r (checkNode ctx e isUnaryNotArgument) ->
       r = report (checkNodeSite e) (messageId r)
       /\ (messageId r = never \/ messageId r = alwaysTruthy
           \/ messageId r = alwaysFalsy).
Proof.
  destruct (checkNode_at_site ctx e isUnaryNotArgument) as [negated ->].
  destruct (isArrayIndexExpression ctx (checkNodeSite e)).
  { split; [cbn; lia|intros r []]. }
  destruct (checkNode_report_shape ctx (checkNodeSite e) negated)
    as [-> | [-> | [-> | ->]]];
    (split; [cbn; lia|]); intros r Hin; cbn in Hin;
    try contradiction; destruct Hin as [<- | []]; cbn; auto.
Qed.

(** X2.  [checkNodeForNullish] makes at most one report; it is a plain
    report on the expression itself, and its message is [never],
    [neverNullish] or [alwaysNullish]. *)
Theorem checkNodeForNullish_reports_at_most_once
  (ctx : RuleContext) (e : Expression) :
  (List.length (checkNodeForNullish ctx e) <= 1)%nat
  /\ forall r : Report,
       In r (checkNodeForNullish ctx e) ->
       r = report e (messageId r)
       /\ (messageId r = never \/ messageId r = neverNullish
           \/ messageId r = alwaysNullish).
Proof.
  unfold checkNodeForNullish.
  destruct (isTypeFlagSet _ _); [split; [cbn; lia|intros r []]|].
  destruct (isTypeFlagSet _ _).
  { split; [cbn; lia|]. intros r [<- | []]. cbn. auto. }
  destruct (negb (isPossiblyNullish _) && _).
  - destruct (negb (isArrayIndexExpression ctx e) && _).
    + split; [cbn; lia|]. intros r [<- | []]. cbn. auto.
    + split; [cbn; lia|intros r []].
  - destruct (isAlwaysNullish _).
    + split; [cbn; lia|]. intros r [<- | []]. cbn. auto.
    + split; [cbn; lia|intros r []].
Qed.

(** ** Negation *)

Lemma checkNode_not_descending
  (ctx : RuleContext) (e : Expression) (negated : bool) :
  checkNodeDescends e = false ->
  checkNode ctx e negated
  = if isArrayIndexExpression ctx e then []
    else checkNode_report ctx e negated.
Proof.
  destruct e; cbn [checkNodeDescends checkNode]; try reflexivity.
  - now intros ->.
  - intros H. apply negb_false_iff in H. now rewrite H.
Qed.

Lemma checkNode_report_negated (ctx : RuleContext) (e : Expression) :
  checkNode_report ctx e true = map swapLabels (checkNode_report ctx e false).
Proof.
  unfold checkNode_report.
  destruct (involvesAnyUnknownOrTypeVariable _); [reflexivity|].
  destruct (isTypeFlagSet _ _); [reflexivity|].
  destruct (negb (isPossiblyTruthy _)); [reflexivity|].
  destruct (negb (isPossiblyFalsy _)); reflexivity.
Qed.

(** X3.  On an expression [checkNode] does not descend from, one negation
    exchanges the labels and nothing else: the reports of [checkNode] on
    [!e] are those on [e] with [alwaysTruthy] and [alwaysFalsy] swapped, on
    the same node [e]; a [never] report stays. *)
Theorem single_negation_swaps_labels
  (ctx : RuleContext) (e : Expression) :
  checkNodeDescends e = false ->
  checkNode ctx (UnaryExpression "!" e) false
  = map swapLabels (checkNode ctx e false).
Proof.
  intros H. cbn [checkNode String.eqb Ascii.eqb Bool.eqb].
  rewrite !checkNode_not_descending by exact H.
  destruct (isArrayIndexExpression ctx e); [reflexivity|].
  apply checkNode_report_negated.
Qed.

Lemma single_negation_swaps_labels_witness :
  checkNode Sites.objectContext (UnaryExpression "!" (Identifier "o")) false
  = [report (Identifier "o") alwaysFalsy].
Proof.
  rewrite (single_negation_swaps_labels Sites.objectContext (Identifier "o"))
    by reflexivity.
  reflexivity.
Defined.

(** ** Array and tuple indices *)

(** X4.  When the expression [checkNode] ends up at is a computed index into
    an array, or a non-literal index into a tuple, [checkNode] reports
    nothing, under any negation; [checkNodeForNullish] on such an index
    may report [never] or [alwaysNullish], but never [neverNullish]. *)
Theorem array_index_is_not_classified
  (ctx : RuleContext) (e : Expression) (isUnaryNotArgument : bool) :
  isArrayIndexExpression ctx (checkNodeSite e) = true ->
  checkNode ctx e isUnaryNotArgument = []
  /\ forall r : Report,
       In r (checkNodeForNullish ctx (checkNodeSite e)) ->
       messageId r <> neverNullish.
Proof.
  intros H. split.
  - destruct (checkNode_at_site ctx e isUnaryNotArgument) as [negated ->].
    now rewrite H.
  - intros r. unfold checkNodeForNullish. rewrite H. cbn [negb andb].
    destruct (isTypeFlagSet _ _); [intros []|].
    destruct (isTypeFlagSet _ _); [intros [<- | []]; discriminate|].
    destruct (negb (isPossiblyNullish _) && _); [intros []|].
    destruct (isAlwaysNullish _); [intros [<- | []]; discriminate|intros []].
Qed.

Lemma array_index_is_not_classified_witness :
  checkNode Sites.neverElementContext
    (UnaryExpression "!" Sites.neverElement) false = []
  /\ checkNodeForNullish Sites.neverElementContext Sites.neverElement
     = [report Sites.neverElement never].
Proof.
  split.
  - apply (array_index_is_not_classified Sites.neverElementContext
             (UnaryExpression "!" Sites.neverElement) false).
    reflexivity.
  - reflexivity.
Defined.

(** ** Truthiness and nullishness of composite types *)

(** A type whose flags are known to carry neither Union nor Intersection
    is its own decomposition. *)
Lemma plain_type_parts (t : TsType) (fl : Z) :
  flags t = fl ->
  hasFlags fl TypeFlags.Union = false ->
  hasFlags fl TypeFlags.Intersection = false ->
  isUnion t = false
  /\ tsutils.unionTypeParts t = [t]
  /\ tsutils.intersectionTypeParts t = [t].
Proof.
  intros Hf Hu Hi.
  assert (E : isUnion t = false) by (unfold isUnion; now rewrite Hf).
  split; [exact E|]. split; [now apply unionTypeParts_not_union|].
  unfold tsutils.intersectionTypeParts, isIntersection. now rewrite Hf, Hi.
Qed.

Ltac plain_type_step t H Hu :=
  cbn [negb andb orb filter existsb forallb];
  rewrite ?(isTypeFlagSet_not_union t _ Hu);
  rewrite ?H; eval_flags; cbn [negb andb orb].

Ltac plain_type H Hu :=
  match type of H with
  | flags ?t = ?fl =>
      let Hp := fresh "Hp" in
      let Hi := fresh "Hi" in
      destruct (plain_type_parts t fl H eq_refl eq_refl) as [Hu [Hp Hi]];
      unfold isPossiblyTruthy, isPossiblyFalsy, isPossiblyNullish,
        isAlwaysNullish, involvesAnyUnknownOrTypeVariable;
      rewrite ?Hp; cbn [map flat_map existsb forallb app];
      rewrite ?Hi; cbn [map flat_map existsb forallb app filter];
      unfold isNullishType, isTypeAnyType, isTypeUnknownType,
        tsutils.isFalsyType, isTruthyLiteral, tsutils.isTrueLiteralType,
        tsutils.isFalseLiteralType, tsutils.isBooleanLiteralType,
        tsutils.isTypeFlagSet, isLiteral_method;
      plain_type_step t H Hu
  end.

Lemma literal_truthy_xor_falsy (t : TsType) :
  isWellFormedLiteral t ->
  isPossiblyTruthy t = negb (isPossiblyFalsy t)
  /\ involvesAnyUnknownOrTypeVariable t = false
  /\ isTypeFlagSet t TypeFlags.Never = false.
Proof.
  intros [[H | [H | H]] | [H Hname]].
  - plain_type H Hu. destruct (valueIsTruthy t); plain_type_step t H Hu;
      repeat split; reflexivity.
  - plain_type H Hu. destruct (valueIsTruthy t); plain_type_step t H Hu;
      repeat split; reflexivity.
  - plain_type H Hu. destruct (valueIsTruthy t); plain_type_step t H Hu;
      repeat split; reflexivity.
  - plain_type H Hu. unfold tsutils.intrinsicNameIs.
    destruct Hname as [-> | ->]; cbn [String.eqb Ascii.eqb Bool.eqb];
      plain_type_step t H Hu; repeat split; reflexivity.
Qed.

(** X5.  On a literal type exactly one of possibly-truthy and
    possibly-falsy holds, so a condition of a literal type is always
    reported: [checkNode], on an expression it classifies in place that is
    not an array or tuple index, reports [alwaysFalsy] when the literal is
    possibly falsy and [alwaysTruthy] otherwise. *)
Theorem literal_condition_is_always_reported
  (ctx : RuleContext) (e : Expression) :
  checkNodeDescends e = false ->
  isArrayIndexExpression ctx e = false ->
  isWellFormedLiteral (typeAt ctx e) ->
  isPossiblyTruthy (typeAt ctx e) = negb (isPossiblyFalsy (typeAt ctx e))
  /\ checkNode ctx e false
     = [report e (if isPossiblyFalsy (typeAt ctx e) then alwaysFalsy
                  else alwaysTruthy)].
Proof.
  intros Hd Hidx Hlit.
  destruct (literal_truthy_xor_falsy _ Hlit) as [Hxor [Hesc Hnever]].
  split; [exact Hxor|].
  rewrite checkNode_not_descending, Hidx by exact Hd.
  unfold checkNode_report. rewrite Hesc, Hnever, Hxor.
  now destruct (isPossiblyFalsy (typeAt ctx e)).
Qed.

Lemma literal_condition_is_always_reported_witness :
  checkNode LoopSites.constantLoopContext (Literal "false") false
  = [report (Literal "false") alwaysFalsy]
  /\ checkNode LoopSites.constantLoopContext (Literal "1") false
     = [report (Literal "1") alwaysTruthy].
Proof.
  split.
  - apply (literal_condition_is_always_reported LoopSites.constantLoopContext
             (Literal "false")); [reflexivity|reflexivity|].
    right. split; [reflexivity|now right].
  - apply (literal_condition_is_always_reported LoopSites.constantLoopContext
             (Literal "1")); [reflexivity|reflexivity|].
    left. right. left. reflexivity.
Defined.

Lemma existsb_singleton {A : Type} (f : A -> bool) (a : A) :
  existsb f [a] = f a.
Proof. cbn. apply orb_false_r. Qed.

Lemma forallb_singleton {A : Type} (f : A -> bool) (a : A) :
  forallb f [a] = f a.
Proof. cbn. apply andb_true_r. Qed.

Lemma existsb_over_map {A B : Type} (f : B -> bool) (g : A -> B)
  (l : list A) :
  existsb f (map g l) = existsb (fun x => f (g x)) l.
Proof. induction l as [|x l IH]; [reflexivity|]. cbn. now rewrite IH. Qed.

Lemma forallb_agree {A : Type} (f g : A -> bool) (l : list A) :
  (forall x, In x l -> f x = g x) -> forallb f l = forallb g l.
Proof.
  induction l as [|x l IH]; intros H; [reflexivity|]. cbn.
  rewrite (H x) by now left. rewrite IH; [reflexivity|].
  intros y Hy. apply H. now right.
Qed.

(** X6.  The predicates distribute over a union whose members are not
    unions: the union is possibly truthy, possibly falsy or possibly nullish
    exactly when some member is, and always nullish exactly when every
    member is. *)
Theorem predicates_distribute_over_union (t : TsType) :
  flatUnion t ->
  isPossiblyTruthy t = existsb isPossiblyTruthy (tsutils.unionTypeParts t)
  /\ isPossiblyFalsy t = existsb isPossiblyFalsy (tsutils.unionTypeParts t)
  /\ isPossiblyNullish t
     = existsb isPossiblyNullish (tsutils.unionTypeParts t)
  /\ isAlwaysNullish t = forallb isAlwaysNullish (tsutils.unionTypeParts t).
Proof.
  unfold flatUnion. rewrite Forall_forall. intros Hflat.
  assert (Hparts : forall part, In part (tsutils.unionTypeParts t) ->
                                tsutils.unionTypeParts part = [part]).
  { intros part Hin. apply unionTypeParts_not_union. now apply Hflat. }
  repeat split.
  - unfold isPossiblyTruthy at 1. rewrite existsb_over_map.
    apply existsb_agree. intros part Hin. unfold isPossiblyTruthy.
    rewrite (Hparts part Hin). cbn [map]. now rewrite existsb_singleton.
  - rewrite isPossiblyFalsy_by_parts. apply existsb_agree. intros part Hin.
    rewrite (isPossiblyFalsy_by_parts part), (Hparts part Hin).
    now rewrite existsb_singleton.
  - unfold isPossiblyNullish at 1. apply existsb_agree. intros part Hin.
    unfold isPossiblyNullish. rewrite (Hparts part Hin).
    now rewrite existsb_singleton.
  - unfold isAlwaysNullish at 1. apply forallb_agree. intros part Hin.
    unfold isAlwaysNullish. rewrite (Hparts part Hin).
    now rewrite forallb_singleton.
Qed.

Lemma predicates_distribute_over_union_witness :
  isPossiblyTruthy Samples.booleanType = true
  /\ isPossiblyFalsy Samples.booleanType = true.
Proof.
  assert (H : flatUnion Samples.booleanType).
  { repeat constructor. }
  destruct (predicates_distribute_over_union Samples.booleanType H)
    as [Ht [Hf _]].
  split; [rewrite Ht|rewrite Hf]; reflexivity.
Defined.

(** X7.  The two classifiers decline on the same types: on a type whose
    union members are not unions, the test of [checkNode] (a member that is
    Any, Unknown or a type variable) and the test of [checkNodeForNullish]
    (the type carries Any, Unknown, TypeParameter or TypeVariable) give the
    same answer. *)
Theorem classifiers_decline_alike (t : TsType) :
  flatUnion t ->
  involvesAnyUnknownOrTypeVariable t
  = isTypeFlagSet t
      (Z.lor TypeFlags.Any
         (Z.lor TypeFlags.Unknown
            (Z.lor TypeFlags.TypeParameter TypeFlags.TypeVariable))).
Proof.
  unfold flatUnion. rewrite Forall_forall. intros Hflat.
  rewrite isTypeFlagSet_unionTypeParts.
  unfold involvesAnyUnknownOrTypeVariable. apply existsb_agree.
  intros part Hin. unfold isTypeAnyType, isTypeUnknownType.
  rewrite !isTypeFlagSet_not_union by now apply Hflat.
  unfold TypeFlags.TypeVariable. rewrite !hasFlags_lor_r.
  destruct (hasFlags (flags part) TypeFlags.Any),
    (hasFlags (flags part) TypeFlags.Unknown),
    (hasFlags (flags part) TypeFlags.TypeParameter),
    (hasFlags (flags part) TypeFlags.IndexedAccess); reflexivity.
Qed.

Lemma classifiers_decline_alike_witness :
  involvesAnyUnknownOrTypeVariable
    (Samples.unionOf [Samples.typeParameter 1; Samples.undefinedType]) = true.
Proof.
  rewrite (classifiers_decline_alike
             (Samples.unionOf [Samples.typeParameter 1;
                               Samples.undefinedType])).
  - reflexivity.
  - repeat constructor.
Defined.

(** ** The nullish classifier *)

(** X8.  An expression whose type is made of Null and Undefined alone
    ([null], [undefined], [null | undefined]) is reported as
    [alwaysNullish]. *)
Theorem nullish_only_type_is_always_nullish
  (ctx : RuleContext) (e : Expression) :
  tsutils.unionTypeParts (typeAt ctx e) <> [] ->
  Forall (fun part => flags part = TypeFlags.Null
                      \/ flags part = TypeFlags.Undefined)
    (tsutils.unionTypeParts (typeAt ctx e)) ->
  checkNodeForNullish ctx e = [report e alwaysNullish].
Proof.
  intros Hne Hparts. rewrite Forall_forall in Hparts.
  assert (Hflag : forall mask,
             hasFlags TypeFlags.Null mask = false ->
             hasFlags TypeFlags.Undefined mask = false ->
             isTypeFlagSet (typeAt ctx e) mask = false).
  { intros mask Hn Hu. rewrite isTypeFlagSet_unionTypeParts.
    apply not_true_is_false. intros H. apply existsb_exists in H.
    destruct H as [part [Hin H]].
    destruct (Hparts part Hin) as [E | E]; rewrite E in H; congruence. }
  assert (Hnullish : forall part,
             In part (tsutils.unionTypeParts (typeAt ctx e)) ->
             isNullishType part = true).
  { intros part Hin. unfold isNullishType.
    destruct (Hparts part Hin) as [E | E];
      (rewrite isTypeFlagSet_not_union by (unfold isUnion; now rewrite E));
      now rewrite E. }
  unfold checkNodeForNullish.
  rewrite !Hflag by reflexivity.
  assert (Hposs : isPossiblyNullish (typeAt ctx e) = true).
  { unfold isPossiblyNullish.
    destruct (tsutils.unionTypeParts (typeAt ctx e)) as [|part parts];
      [contradiction|].
    cbn. rewrite Hnullish by now left. reflexivity. }
  assert (Hall : isAlwaysNullish (typeAt ctx e) = true).
  { unfold isAlwaysNullish. apply forallb_forall. exact Hnullish. }
  now rewrite Hposs, Hall.
Qed.

Lemma nullish_only_type_is_always_nullish_witness :
  checkNodeForNullish
    (Samples.contextOf
       (fun _ => Samples.unionOf [Samples.nullType; Samples.undefinedType]))
    (Identifier "x")
  = [report (Identifier "x") alwaysNullish].
Proof.
  apply nullish_only_type_is_always_nullish.
  - discriminate.
  - apply Forall_forall. intros part Hin. vm_compute in Hin.
    destruct Hin as [<- | [<- | []]]; [now left|now right].
Defined.

(** X9.  [checkNodeForNullish] reports [neverNullish] exactly when nothing
    speaks against it: the type carries none of Any, Unknown, TypeParameter,
    TypeVariable and Never, is not possibly nullish, the expression is not
    an array or tuple index, not a member access that
    [isNullableMemberExpression] accepts, and, when it is a chain
    expression, no optional array-index step is reached from its element
    through [callee] and [object] links (a step behind a non-null assertion
    does not count). *)
Theorem neverNullish_is_conservative
  (ctx : RuleContext) (e : Expression) :
  checkNodeForNullish ctx e = [report e neverNullish]
  <-> (isTypeFlagSet (typeAt ctx e)
         (Z.lor TypeFlags.Any
            (Z.lor TypeFlags.Unknown
               (Z.lor TypeFlags.TypeParameter TypeFlags.TypeVariable)))
       = false
       /\ isTypeFlagSet (typeAt ctx e) TypeFlags.Never = false
       /\ isPossiblyNullish (typeAt ctx e) = false
       /\ isArrayIndexExpression ctx e = false
       /\ isNullableMemberExpression ctx e = false
       /\ forall chain, e = ChainExpression chain ->
                        chainHasOptionalArrayIndexStep ctx chain = false).
Proof.
  assert (Hmember :
    AST_NODE_TYPES.eqb (nodeType e) AST_NODE_TYPES.MemberExpression
    && isNullableMemberExpression ctx e
    = isNullableMemberExpression ctx e).
  { destruct e; reflexivity. }
  assert (Hchain :
    match e with
    | ChainExpression expression =>
        negb (AST_NODE_TYPES.eqb (nodeType expression)
                AST_NODE_TYPES.TSNonNullExpression)
        && optionChainContainsOptionArrayIndex ctx expression
    | _ => false
    end = false
    <-> forall chain, e = ChainExpression chain ->
                      chainHasOptionalArrayIndexStep ctx chain = false).
  { destruct e; try (split; [intros _ chain H; discriminate H|reflexivity]).
    rewrite optionChainContainsOptionArrayIndex_chainSteps.
    destruct (chainHasOptionalArrayIndexStep ctx e) eqn:Hc.
    - pose proof (infected_chain_is_member_or_call ctx e Hc) as Hm.
      assert (Hn : AST_NODE_TYPES.eqb (nodeType e)
                     AST_NODE_TYPES.TSNonNullExpression = false).
      { destruct e; cbn in Hm; try discriminate; reflexivity. }
      rewrite Hn. cbn [negb andb]. split; [discriminate|].
      intros H. rewrite <- Hc. now apply H.
    - rewrite andb_false_r. split; [|reflexivity].
      intros _ chain H. injection H as <-. exact Hc. }
  unfold checkNodeForNullish. rewrite Hmember.
  destruct (isTypeFlagSet (typeAt ctx e) (Z.lor TypeFlags.Any _)).
  { split; [discriminate|intros [H _]; discriminate]. }
  destruct (isTypeFlagSet (typeAt ctx e) TypeFlags.Never).
  { split; [discriminate|intros [_ [H _]]; discriminate]. }
  destruct (isPossiblyNullish (typeAt ctx e)); cbn [negb andb].
  { split; [|intros [_ [_ [H _]]]; discriminate].
    destruct (isAlwaysNullish _); discriminate. }
  destruct (isNullableMemberExpression ctx e); cbn [negb].
  { split; [|intros [_ [_ [_ [_ [H _]]]]]; discriminate].
    destruct (isAlwaysNullish _); discriminate. }
  destruct (isArrayIndexExpression ctx e); cbn [negb andb].
  { split; [discriminate|intros [_ [_ [_ [H _]]]]; discriminate]. }
  match goal with
  | |- context [negb ?g] => destruct g eqn:Hg
  end; cbn [negb].
  - split; [discriminate|]. intros [_ [_ [_ [_ [_ H]]]]].
    apply Hchain in H. discriminate.
  - split; [|reflexivity]. intros _. do 5 (split; [reflexivity|]).
    now apply Hchain.
Qed.

Lemma neverNullish_is_conservative_witness :
  checkNodeForNullish (Samples.contextOf (fun _ => Samples.stringType))
    (Identifier "s")
  = [report (Identifier "s") neverNullish].
Proof.
  apply (neverNullish_is_conservative
           (Samples.contextOf (fun _ => Samples.stringType))
           (Identifier "s")).
  do 5 (split; [reflexivity|]). intros chain H. discriminate H.
Defined.

(** ** Binary comparisons *)

(** X10.  The binary check makes at most one report, on the comparison
    itself.  It reports nothing for an operator outside the eight comparison
    operators; a [literalBooleanExpression] report means both operand types
    are bare literals, whatever the compiler options; a
    [noOverlapBooleanExpression] report is only made under strict null
    checks, and never when both operands are bare literals. *)
Theorem binary_check_reports
  (ctx : RuleContext) (operator : string) (left_ right_ : Expression) :
  let e := BinaryExpression operator left_ right_ in
  let bothLiteral :=
    isLiteral (typeAt ctx left_) && isLiteral (typeAt ctx right_) in
  (List.length (checkIfBinaryExpressionIsNecessaryConditional ctx e) <= 1)%nat
  /\ (BOOL_OPERATORS_has operator = false ->
      checkIfBinaryExpressionIsNecessaryConditional ctx e = [])
  /\ (BOOL_OPERATORS_has operator = true -> bothLiteral = true ->
      checkIfBinaryExpressionIsNecessaryConditional ctx e
      = [report e literalBooleanExpression])
  /\ forall r : Report,
       In r (checkIfBinaryExpressionIsNecessaryConditional ctx e) ->
       r = report e (messageId r)
       /\ BOOL_OPERATORS_has operator = true
       /\ ((messageId r = literalBooleanExpression /\ bothLiteral = true)
           \/ (messageId r = noOverlapBooleanExpression
               /\ bothLiteral = false /\ isStrictNullChecks ctx = true)).
Proof.
  cbv zeta. cbn [checkIfBinaryExpressionIsNecessaryConditional].
  destruct (BOOL_OPERATORS_has operator); cbn [negb].
  2: { split; [cbn; lia|]. split; [reflexivity|]. split; [discriminate|].
       intros r []. }
  destruct (isLiteral (typeAt ctx left_) && isLiteral (typeAt ctx right_)).
  { split; [cbn; lia|]. split; [discriminate|]. split; [reflexivity|].
    intros r [<- | []]. cbn. auto. }
  split; [|split; [discriminate|split; [discriminate|]]].
  - destruct (isStrictNullChecks ctx); [|cbn; lia].
    match goal with
    | |- context [if ?c then _ else _] => destruct c
    end; cbn; lia.
  - destruct (isStrictNullChecks ctx); [|intros r []].
    match goal with
    | |- context [if ?c then _ else _] => destruct c
    end; [|intros r []].
    intros r [<- | []]. cbn. intuition.
Qed.

Lemma binary_check_reports_witness :
  checkIfBinaryExpressionIsNecessaryConditional CompareSites.compareContext
    (BinaryExpression "+" (Identifier "s") (Identifier "undefined")) = []
  /\ checkIfBinaryExpressionIsNecessaryConditional
       LoopSites.constantLoopContext
       (BinaryExpression "===" (Literal "1") (Literal "false"))
     = [report (BinaryExpression "===" (Literal "1") (Literal "false"))
          literalBooleanExpression].
Proof.
  split.
  - apply (binary_check_reports CompareSites.compareContext "+"). reflexivity.
  - apply (binary_check_reports LoopSites.constantLoopContext "===");
      reflexivity.
Defined.

(** X11.  A comparison is never reported when one of its operands has a
    type that is not a bare literal and carries Any, Unknown, TypeParameter
    or TypeVariable. *)
Theorem comparison_with_escape_operand_is_kept
  (ctx : RuleContext) (operator : string) (left_ right_ : Expression) :
  let escapes (t : TsType) :=
    isLiteral t = false
    /\ isTypeFlagSet t
         (Z.lor TypeFlags.Any
            (Z.lor TypeFlags.Unknown
               (Z.lor TypeFlags.TypeParameter TypeFlags.TypeVariable)))
       = true in
  escapes (typeAt ctx left_) \/ escapes (typeAt ctx right_) ->
  checkIfBinaryExpressionIsNecessaryConditional ctx
    (BinaryExpression operator left_ right_) = [].
Proof.
  cbv zeta. intros Hesc.
  assert (Hcmp : forall t flag,
             isTypeFlagSet t
               (Z.lor TypeFlags.Any
                  (Z.lor TypeFlags.Unknown
                     (Z.lor TypeFlags.TypeParameter TypeFlags.TypeVariable)))
             = true ->
             isComparable operator t flag = true).
  { intros t flag H. unfold isComparable.
    destruct (String.eqb operator "==" || String.eqb operator "!=");
      rewrite ?(isTypeFlagSet_lor t (Z.lor flag _)), (isTypeFlagSet_lor t flag),
        H; now rewrite ?orb_true_r. }
  assert (Hund : forall t, isLiteral t = false ->
                           (flags t =? TypeFlags.Undefined) = false
                           /\ (flags t =? TypeFlags.Null) = false).
  { intros t H. unfold isLiteral in H.
    rewrite !orb_false_iff in H. tauto. }
  cbn [checkIfBinaryExpressionIsNecessaryConditional].
  destruct (BOOL_OPERATORS_has operator); [cbn [negb]|reflexivity].
  destruct Hesc as [[Hlit Hcar] | [Hlit Hcar]];
    destruct (Hund _ Hlit) as [Hu Hn];
    rewrite Hlit, ?andb_false_r; cbn [andb];
    (destruct (isStrictNullChecks ctx); [|reflexivity]);
    rewrite Hu, Hn, !(Hcmp _ _ Hcar); cbn [negb andb orb];
    now rewrite ?andb_false_r.
Qed.

Lemma comparison_with_escape_operand_is_kept_witness :
  checkIfBinaryExpressionIsNecessaryConditional Sites.escapeContext
    (BinaryExpression "===" (Identifier "x") (Identifier "n")) = [].
Proof.
  apply (comparison_with_escape_operand_is_kept Sites.escapeContext "===").
  left. split; reflexivity.
Defined.

(** ** Logical assignments and loops *)

(** X12.  A logical assignment is checked as the logical expression it
    abbreviates: [a ||= b], [a &&= b] and [a ??= b] get the reports of the
    listener of [a || b], [a && b] and [a ?? b], whatever the right operand;
    any other assignment operator gets none. *)
Theorem logical_assignment_is_checked_as_logical
  (ctx : RuleContext) (a b c : Expression) :
  checkAssignmentExpression ctx (AssignmentExpression "||=" a b)
  = checkLogicalExpressionForUnnecessaryConditionals ctx
      (LogicalExpression "||" a c)
  /\ checkAssignmentExpression ctx (AssignmentExpression "&&=" a b)
     = checkLogicalExpressionForUnnecessaryConditionals ctx
         (LogicalExpression "&&" a c)
  /\ checkAssignmentExpression ctx (AssignmentExpression "??=" a b)
     = checkLogicalExpressionForUnnecessaryConditionals ctx
         (LogicalExpression "??" a c)
  /\ forall operator : string,
       ~ In operator ["||="; "&&="; "??="] ->
       checkAssignmentExpression ctx (AssignmentExpression operator a b) = [].
Proof.
  repeat split. intros operator Hop.
  cbn [checkAssignmentExpression existsb].
  destruct (String.eqb operator "||=") eqn:E1.
  { apply String.eqb_eq in E1. exfalso. apply Hop. cbn. auto. }
  destruct (String.eqb operator "&&=") eqn:E2.
  { apply String.eqb_eq in E2. exfalso. apply Hop. cbn. auto. }
  destruct (String.eqb operator "??=") eqn:E3.
  { apply String.eqb_eq in E3. exfalso. apply Hop. cbn. auto. }
  reflexivity.
Qed.

Lemma logical_assignment_is_checked_as_logical_witness :
  checkAssignmentExpression Sites.objectContext
    (AssignmentExpression "+=" (Identifier "o") (Literal "1")) = [].
Proof.
  apply (logical_assignment_is_checked_as_logical Sites.objectContext
           (Identifier "o") (Literal "1") (Literal "1")).
  cbn. intros [H | [H | [H | []]]]; discriminate.
Defined.

Lemma checkNode_withConstantLoopConditions
  (ctx : RuleContext) (allow : bool) (e : Expression) (negated : bool) :
  checkNode (withConstantLoopConditions ctx allow) e negated
  = checkNode ctx e negated.
Proof.
  reflexivity.
Qed.

(** X13.  The loop option only takes reports away.  With
    [allowConstantLoopConditions] off a loop test is checked as the test of
    an [if]; with it on, the reports are either those or none.  A loop
    without a test is never reported. *)
Theorem constant_loop_option_only_removes_reports
  (ctx : RuleContext) (loop : Statement) :
  let off := withConstantLoopConditions ctx false in
  let on := withConstantLoopConditions ctx true in
  (loopTest loop = None ->
   checkIfLoopIsNecessaryConditional ctx loop = [])
  /\ (forall test, loopTest loop = Some test ->
        checkIfLoopIsNecessaryConditional off loop = checkNode ctx test false)
  /\ (checkIfLoopIsNecessaryConditional on loop = []
      \/ checkIfLoopIsNecessaryConditional on loop
         = checkIfLoopIsNecessaryConditional off loop).
Proof.
  cbv zeta. unfold checkIfLoopIsNecessaryConditional. split; [|split].
  - now intros ->.
  - intros test ->. cbn [options withConstantLoopConditions
                         allowConstantLoopConditions andb].
    apply checkNode_withConstantLoopConditions.
  - destruct (loopTest loop) as [test|]; [|now left].
    cbn [options withConstantLoopConditions allowConstantLoopConditions andb].
    destruct (tsutils.isTrueLiteralType _); [now left|right].
    now rewrite !checkNode_withConstantLoopConditions.
Qed.

Lemma constant_loop_option_only_removes_reports_witness :
  checkIfLoopIsNecessaryConditional LoopSites.constantLoopContext
    (ForStatement None None None (BlockStatement [])) = []
  /\ checkIfLoopIsNecessaryConditional
       (withConstantLoopConditions LoopSites.constantLoopContext false)
       LoopSites.whileTrue
     = [report (Literal "true") alwaysTruthy].
Proof.
  split.
  - apply (constant_loop_option_only_removes_reports
             LoopSites.constantLoopContext). reflexivity.
  - rewrite (proj1 (proj2 (constant_loop_option_only_removes_reports
                             LoopSites.constantLoopContext
                             LoopSites.whileTrue))
               (Literal "true") eq_refl).
    reflexivity.
Defined.

(** ** Predicate callbacks *)

Lemma checkNode_length
  (ctx : RuleContext) (e : Expression) (isUnaryNotArgument : bool) :
  (List.length (checkNode ctx e isUnaryNotArgument) <= 1)%nat.
Proof.
  destruct (checkNode_at_site ctx e isUnaryNotArgument) as [negated ->].
  destruct (isArrayIndexExpression ctx (checkNodeSite e)); [cbn; lia|].
  destruct (checkNode_report_shape ctx (checkNodeSite e) negated)
    as [-> | [-> | [-> | ->]]]; cbn; lia.
Qed.

(** X14.  [checkCallExpression] makes at most one report, and none unless
    the call is [filter], [find], [some] or [every] on an array or tuple
    with a first argument.  On such a call: for an inline callback with an
    expression body or a single [return], the reports are those of
    [checkNode] on the returned expression.  Otherwise: nothing when the
    callback has no call signature or a return type is Any or Unknown; else
    [alwaysTruthyFunc] on the callback (not on the call) when no return
    type is possibly falsy; else [alwaysFalsyFunc] on the callback when no
    return type is possibly truthy; else nothing. *)
Theorem predicate_callback_reports
  (ctx : RuleContext) (callee callback : Expression)
  (rest : list Expression) (optional : bool) :
  let e := CallExpression callee (callback :: rest) optional in
  let returnTypes :=
    map getReturnType
      (getCallSignaturesOfType (checker ctx) (typeAt ctx callback)) in
  let declines :=
    existsb (fun t => isTypeAnyType t || isTypeUnknownType t) returnTypes in
  (forall other : Expression,
      (List.length (checkCallExpression ctx other) <= 1)%nat
      /\ (isArrayPredicateFunction ctx other = false ->
          checkCallExpression ctx other = []))
  /\ checkCallExpression ctx (CallExpression callee [] optional) = []
  /\ (isArrayPredicateFunction ctx e = true ->
      (forall condition,
          inlineCallbackCondition callback = Some condition ->
          checkCallExpression ctx e = checkNode ctx condition false)
      /\ (inlineCallbackCondition callback = None ->
          (returnTypes = [] \/ declines = true ->
           checkCallExpression ctx e = [])
          /\ (returnTypes <> [] -> declines = false ->
              (existsb isPossiblyFalsy returnTypes = false ->
               checkCallExpression ctx e = [report callback alwaysTruthyFunc])
              /\ (existsb isPossiblyFalsy returnTypes = true ->
                  existsb isPossiblyTruthy returnTypes = false ->
                  checkCallExpression ctx e
                  = [report callback alwaysFalsyFunc])
              /\ (existsb isPossiblyFalsy returnTypes = true ->
                  existsb isPossiblyTruthy returnTypes = true ->
                  checkCallExpression ctx e = [])))).
Proof.
  cbv zeta. split; [|split; [reflexivity|]].
  - intros other.
    destruct other
      as [ | | | | | | | | callee' [|callback' rest'] optional' | | | | ];
      try (split; [cbn; lia|reflexivity]).
    cbn [checkCallExpression].
    destruct (isArrayPredicateFunction ctx _); [|split; [cbn; lia|reflexivity]].
    split; [|discriminate].
    destruct (inlineCallbackCondition callback'); [apply checkNode_length|].
    break_match; cbn; lia.
  - intros Hpred. cbn [checkCallExpression]. rewrite Hpred. split.
    + now intros condition ->.
    + intros ->.
      set (returnTypes := map getReturnType _).
      assert (Hlen : (List.length returnTypes =? 0)%nat = true
                     <-> returnTypes = []).
      { rewrite Nat.eqb_eq. apply length_zero_iff_nil. }
      destruct (List.length returnTypes =? 0)%nat eqn:E0.
      { split; [reflexivity|]. intros Hne. exfalso. apply Hne.
        now apply Hlen. }
      assert (Hne : returnTypes <> []).
      { intros H. apply Hlen in H. discriminate. }
      split.
      * intros [H | H]; [contradiction|]. now rewrite H.
      * intros _ ->. repeat split.
        -- now intros ->.
        -- now intros -> ->.
        -- now intros -> ->.
Qed.

Lemma predicate_callback_reports_witness :
  checkCallExpression CallSites.callContext CallSites.filterByReference
  = [report (Identifier "isA") alwaysTruthyFunc]
  /\ checkCallExpression CallSites.callContext CallSites.filterInline
     = checkNode CallSites.callContext (Identifier "o") false
  /\ checkCallExpression Sites.objectContext
       (CallExpression (Identifier "o") [Identifier "o"] false) = [].
Proof.
  split; [|split].
  - apply (predicate_callback_reports CallSites.callContext
             CallSites.arrFilter (Identifier "isA") [] false);
      try reflexivity.
    discriminate.
  - apply (predicate_callback_reports CallSites.callContext
             CallSites.arrFilter
             (ArrowFunctionExpression (ExpressionBody (Identifier "o")))
             [] false); reflexivity.
  - apply (proj2 (proj1 (predicate_callback_reports Sites.objectContext
                           (Identifier "o") (Identifier "o") [] false)
                    (CallExpression (Identifier "o") [Identifier "o"] false))).
    reflexivity.
Defined.

(** ** Optional steps *)

Section OptionalStepShape.
Variable ctx : RuleContext.

Lemma checkOptionalChain_cases
  (step beforeOperator : Expression) (text : string) :
  checkOptionalChain ctx step beforeOperator text
  = match chainStep step with
    | Some (true, base) =>
        if chainHasOptionalArrayIndexStep ctx step then Reported []
        else if isOptionableExpression ctx base then Reported []
        else match getTokenAfter ctx beforeOperator isQuestionDot with
             | None => Thrown "Expected to find a operator"
             | Some questionDot =>
                 Reported [redundantOptionalStep step questionDot text]
             end
    | _ => Reported []
    end.
Proof.
  unfold checkOptionalChain.
  destruct (chainStep step) as [[[|] base]|]; try reflexivity.
  cbn [negb]. now rewrite optionChainContainsOptionArrayIndex_chainSteps.
Qed.

Lemma getTokenAfter_questionDot (e : Expression) (token : Token) :
  getTokenAfter ctx e isQuestionDot = Some token ->
  In token (tokensAfter (sourceCode ctx) e)
  /\ tokenType token = Punctuator /\ tokenValue token = "?.".
Proof.
  unfold getTokenAfter. intros H. apply find_some in H as [Hin Hq].
  split; [exact Hin|]. unfold isQuestionDot in Hq.
  destruct (tokenType token); [|discriminate].
  split; [reflexivity|]. now apply String.eqb_eq.
Qed.

Lemma not_optionable_not_any (base : Expression) :
  isOptionableExpression ctx base = false ->
  isTypeFlagSet (typeAt ctx base)
    (Z.lor TypeFlags.Any TypeFlags.Unknown) = false.
Proof.
  unfold isOptionableExpression. intros H.
  now apply orb_false_iff in H as [H _].
Qed.
End OptionalStepShape.

Lemma checkOptionalStep_cases (ctx : RuleContext) (step : Expression) :
  checkOptionalStep ctx step
  = match chainStep step with
    | Some (true, base) =>
        if chainHasOptionalArrayIndexStep ctx step then Reported []
        else if isOptionableExpression ctx base then Reported []
        else match getTokenAfter ctx base isQuestionDot with
             | None => Thrown "Expected to find a operator"
             | Some questionDot =>
                 Reported [redundantOptionalStep step questionDot
                             (replacementOf step)]
             end
    | _ => Reported []
    end.
Proof.
  destruct step; try reflexivity;
    cbn [checkOptionalStep checkOptionalMemberExpression
         checkOptionalCallExpression];
    rewrite checkOptionalChain_cases; cbn [chainStep replacementOf].
  - destruct optional; [|reflexivity]. now destruct computed.
  - reflexivity.
Qed.

(** X15.  An optional step is only ever reported as redundant: the step is
    marked optional, no optional array-index step is reached from it
    through [callee] and [object] links (one behind a non-null assertion
    does not count), the type of its base carries neither Any nor Unknown,
    and the report is placed on a [?.] punctuator found after the base,
    which the fix replaces by [.] for a plain member access and by nothing
    for a computed access or a call.  Conversely, an optional step whose
    base is not optionable, with no such array-index step and with the [?.]
    token at hand, gets exactly that report. *)
Theorem redundant_step_report_is_well_placed
  (ctx : RuleContext) (step : Expression) :
  (forall r : Report,
      In r (reportsOf (checkOptionalStep ctx step)) ->
      exists (base : Expression) (questionDot : Token),
        chainStep step = Some (true, base)
        /\ chainHasOptionalArrayIndexStep ctx step = false
        /\ isOptionableExpression ctx base = false
        /\ isTypeFlagSet (typeAt ctx base)
             (Z.lor TypeFlags.Any TypeFlags.Unknown) = false
        /\ In questionDot (tokensAfter (sourceCode ctx) base)
        /\ tokenType questionDot = Punctuator
        /\ tokenValue questionDot = "?."
        /\ r = redundantOptionalStep step questionDot (replacementOf step)
        /\ checkOptionalStep ctx step = Reported [r])
  /\ (forall (base : Expression) (questionDot : Token),
        chainStep step = Some (true, base) ->
        chainHasOptionalArrayIndexStep ctx step = false ->
        isOptionableExpression ctx base = false ->
        getTokenAfter ctx base isQuestionDot = Some questionDot ->
        checkOptionalStep ctx step
        = Reported [redundantOptionalStep step questionDot
                      (replacementOf step)]).
Proof.
  rewrite checkOptionalStep_cases. split.
  - intros r.
    destruct (chainStep step) as [[[|] base]|]; try (intros []).
    destruct (chainHasOptionalArrayIndexStep ctx step); [intros []|].
    destruct (isOptionableExpression ctx base) eqn:Hopt; [intros []|].
    destruct (getTokenAfter ctx base isQuestionDot) as [questionDot|]
      eqn:Htok; [|intros []].
    intros [<- | []]. exists base, questionDot.
    destruct (getTokenAfter_questionDot ctx base questionDot Htok)
      as [Hin [Hty Hval]].
    pose proof (not_optionable_not_any ctx base Hopt).
    repeat split; assumption || reflexivity.
  - intros base questionDot -> -> -> ->. reflexivity.
Qed.

Lemma redundant_step_report_is_well_placed_witness :
  checkOptionalStep ChainSites.chainContext ChainSites.aA
  = Reported [redundantOptionalStep ChainSites.aA ChainSites.questionDot "."]
  /\ exists (base : Expression) (questionDot : Token),
       chainStep ChainSites.aA = Some (true, base)
       /\ tokenValue questionDot = "?.".
Proof.
  split.
  - apply (proj2 (redundant_step_report_is_well_placed
                    ChainSites.chainContext ChainSites.aA)
             (Identifier "a") ChainSites.questionDot); reflexivity.
  - destruct (proj1 (redundant_step_report_is_well_placed
                       ChainSites.chainContext ChainSites.aA)
                (redundantOptionalStep ChainSites.aA
                   ChainSites.questionDot "."))
      as [base [questionDot H]].
    + now left.
    + exists base, questionDot. split; apply H.
Defined.

(** X16.  An optional step throws only when it is about to report and no
    [?.] punctuator follows its base: the step is optional, its chain has no
    optional array-index step, its base is not optionable and none of the
    tokens after the base is a [?.].  When such a token is there the check
    does not throw. *)
Theorem optional_step_throws_only_without_token
  (ctx : RuleContext) (step : Expression) :
  (forall reason : string,
      checkOptionalStep ctx step = Thrown reason ->
      exists base : Expression,
        chainStep step = Some (true, base)
        /\ chainHasOptionalArrayIndexStep ctx step = false
        /\ isOptionableExpression ctx base = false
        /\ forall token, In token (tokensAfter (sourceCode ctx) base) ->
                         isQuestionDot token = false)
  /\ (forall (optional : bool) (base : Expression) (token : Token),
        chainStep step = Some (optional, base) ->
        In token (tokensAfter (sourceCode ctx) base) ->
        isQuestionDot token = true ->
        exists reports, checkOptionalStep ctx step = Reported reports).
Proof.
  rewrite checkOptionalStep_cases. split.
  - intros reason.
    destruct (chainStep step) as [[[|] base]|]; try discriminate.
    destruct (chainHasOptionalArrayIndexStep ctx step) eqn:Hidx;
      [discriminate|].
    destruct (isOptionableExpression ctx base) eqn:Hopt; [discriminate|].
    destruct (getTokenAfter ctx base isQuestionDot) eqn:Htok; [discriminate|].
    intros _. exists base. do 3 (split; [first [reflexivity|assumption]|]).
    intros token Hin. unfold getTokenAfter in Htok.
    apply (find_none _ _ Htok token Hin).
  - intros optional base token -> Hin Hq.
    destruct optional; [|eexists; reflexivity].
    destruct (chainHasOptionalArrayIndexStep ctx step); [eexists; reflexivity|].
    destruct (isOptionableExpression ctx base); [eexists; reflexivity|].
    destruct (getTokenAfter ctx base isQuestionDot) eqn:Htok;
      [eexists; reflexivity|].
    unfold getTokenAfter in Htok.
    rewrite (find_none _ _ Htok token Hin) in Hq. discriminate.
Qed.

Lemma optional_step_throws_only_without_token_witness :
  exists reports,
    checkOptionalStep ChainSites.chainContext ChainSites.aA = Reported reports.
Proof.
  apply (proj2 (optional_step_throws_only_without_token
                  ChainSites.chainContext ChainSites.aA)
           true (Identifier "a") ChainSites.questionDot).
  - reflexivity.
  - now left.
  - reflexivity.
Defined.

(** X17.  The search for an optional array index carries downstream: once it
    succeeds on an expression, it succeeds on every member access and call
    built on that expression, optional or not, and the optional-step check
    of such a step reports nothing. *)
Theorem array_index_search_carries_downstream
  (ctx : RuleContext) (base : Expression) :
  optionChainContainsOptionArrayIndex ctx base = true ->
  forall step : Expression,
    (exists property computed optional,
        step = MemberExpression base property computed optional)
    \/ (exists arguments optional,
           step = CallExpression base arguments optional) ->
    optionChainContainsOptionArrayIndex ctx step = true
    /\ checkOptionalStep ctx step = Reported [].
Proof.
  intros Hbase step Hstep.
  assert (Hm : isMemberOrCall base = true).
  { apply (infected_chain_is_member_or_call ctx).
    now rewrite <- optionChainContainsOptionArrayIndex_chainSteps. }
  assert (Hs : optionChainContainsOptionArrayIndex ctx step = true).
  { destruct Hstep as [[property [computed [optional ->]]]
                      | [arguments [optional ->]]];
      cbn [optionChainContainsOptionArrayIndex]; rewrite Hm, Hbase;
      now destruct (optional && isArrayIndexExpression ctx base). }
  split; [exact Hs|].
  rewrite checkOptionalStep_cases.
  rewrite <- optionChainContainsOptionArrayIndex_chainSteps, Hs.
  now destruct (chainStep step) as [[[|] b]|].
Qed.

Lemma array_index_search_carries_downstream_witness :
  optionChainContainsOptionArrayIndex ChainSites.chainContext
    (MemberExpression ChainSites.arrIFoo (Identifier "bar") false true) = true.
Proof.
  apply (array_index_search_carries_downstream ChainSites.chainContext
           ChainSites.arrIFoo); [reflexivity|].
  left. exists (Identifier "bar"), false, true. reflexivity.
Defined.

(** X18.  An optional call [callee?.(...)]: when the type of the callee is
    nullable or possibly void, and the tracer does not attribute that to
    the object or callee of the callee, nothing is reported; when the type
    of the callee is neither Any or Unknown nor nullable or void, the chain
    has no optional array-index step and the [?.] token is found, the call
    is reported as redundant and the fix removes the [?.]. *)
Theorem optional_call_step_verdict
  (ctx : RuleContext) (callee : Expression) (arguments : list Expression) :
  let step := CallExpression callee arguments true in
  (isNullableType (typeAt ctx callee) = true
   \/ isTypeFlagSet (typeAt ctx callee) TypeFlags.Void = true ->
   isMemberExpressionNullableOriginFromObject ctx callee = false ->
   isCallExpressionNullableOriginFromCallee ctx callee = false ->
   checkOptionalCallExpression ctx step = Reported [])
  /\ (forall questionDot : Token,
        isTypeFlagSet (typeAt ctx callee)
          (Z.lor TypeFlags.Any TypeFlags.Unknown) = false ->
        isNullableType (typeAt ctx callee) = false ->
        isTypeFlagSet (typeAt ctx callee) TypeFlags.Void = false ->
        chainHasOptionalArrayIndexStep ctx step = false ->
        getTokenAfter ctx callee isQuestionDot = Some questionDot ->
        checkOptionalCallExpression ctx step
        = Reported [redundantOptionalStep step questionDot ""]).
Proof.
  cbv zeta. split.
  - intros Hn Hm Hc.
    change (checkOptionalCallExpression ctx (CallExpression callee arguments true))
      with (checkOptionalStep ctx (CallExpression callee arguments true)).
    rewrite checkOptionalStep_cases. cbn [chainStep].
    rewrite (isOptionableExpression_own ctx callee Hm Hc).
    assert (E : isNullableType (typeAt ctx callee)
                || isTypeFlagSet (typeAt ctx callee) TypeFlags.Void = true).
    { apply orb_true_iff. exact Hn. }
    rewrite E, orb_true_r.
    now destruct (chainHasOptionalArrayIndexStep ctx _).
  - intros questionDot Hany Hn Hvoid Hidx Htok.
    change (checkOptionalCallExpression ctx (CallExpression callee arguments true))
      with (checkOptionalStep ctx (CallExpression callee arguments true)).
    rewrite checkOptionalStep_cases. cbn [chainStep replacementOf].
    rewrite Hidx, Htok.
    assert (Ho : isOptionableExpression ctx callee = false).
    { unfold isOptionableExpression. rewrite Hany, Hn, Hvoid.
      now rewrite andb_false_r. }
    now rewrite Ho.
Qed.

Lemma optional_call_step_verdict_witness :
  checkOptionalCallExpression ChainSites.chainContext
    (CallExpression (Identifier "a") [] true)
  = Reported [redundantOptionalStep (CallExpression (Identifier "a") [] true)
                ChainSites.questionDot ""]
  /\ checkOptionalCallExpression ChainSites.chainContext
       (CallExpression (Identifier "base") [] true)
     = Reported [].
Proof.
  split.
  - apply (proj2 (optional_call_step_verdict ChainSites.chainContext
                    (Identifier "a") [])); reflexivity.
  - apply (proj1 (optional_call_step_verdict ChainSites.chainContext
                    (Identifier "base") [])); try reflexivity.
    now left.
Defined.

(** X19.  The tracer on a call: when the callee of a call has a nullable
    union type no member of which has a call signature with a nullable
    return type, the nullability of the call is taken as inherited from the
    callee, and an optional step on that call is reported as redundant
    (the type of the call not including Any or Unknown, no optional
    array-index step in the chain, and the [?.] token found). *)
Theorem inherited_call_nullability_makes_step_redundant
  (ctx : RuleContext) (callee : Expression) (arguments : list Expression)
  (optional : bool) (step : Expression) (questionDot : Token) :
  let base := CallExpression callee arguments optional in
  chainStep step = Some (true, base) ->
  isUnion (typeAt ctx callee) = true ->
  (forall member sig,
      In member (types (typeAt ctx callee)) ->
      In sig (getCallSignatures (checker ctx) member) ->
      isNullableType (getReturnType sig) = false) ->
  isNullableType (typeAt ctx callee) = true ->
  isTypeFlagSet (typeAt ctx base)
    (Z.lor TypeFlags.Any TypeFlags.Unknown) = false ->
  chainHasOptionalArrayIndexStep ctx step = false ->
  getTokenAfter ctx base isQuestionDot = Some questionDot ->
  isCallExpressionNullableOriginFromCallee ctx base = true
  /\ checkOptionalStep ctx step
     = Reported [redundantOptionalStep step questionDot (replacementOf step)].
Proof.
  cbv zeta. intros Hstep Hu Hsig Hn Hany Hidx Htok.
  assert (Htracer : isCallExpressionNullableOriginFromCallee ctx
                      (CallExpression callee arguments optional) = true).
  { cbn [isCallExpressionNullableOriginFromCallee].
    rewrite Hu, Hn, andb_true_r. apply negb_true_iff.
    apply not_true_is_false. intros H. apply existsb_exists in H.
    destruct H as [member [Hin H]]. apply existsb_exists in H.
    destruct H as [sig [Hsigin H]]. rewrite (Hsig member sig Hin Hsigin) in H.
    discriminate. }
  split; [exact Htracer|].
  rewrite checkOptionalStep_cases, Hstep, Hidx, Htok.
  assert (Ho : isOptionableExpression ctx
                 (CallExpression callee arguments optional) = false).
  { unfold isOptionableExpression. cbn [nodeType AST_NODE_TYPES.eqb].
    rewrite Htracer, Hany. reflexivity. }
  now rewrite Ho.
Qed.

Lemma inherited_call_nullability_makes_step_redundant_witness :
  checkOptionalStep CallSites.callContext CallSites.fooCallBar
  = Reported [redundantOptionalStep CallSites.fooCallBar
                ChainSites.questionDot "."].
Proof.
  apply (inherited_call_nullability_makes_step_redundant
           CallSites.callContext (Identifier "foo") [] true
           CallSites.fooCallBar ChainSites.questionDot); try reflexivity.
  intros member sig [<- | [<- | []]]; cbn; [|intros []].
  intros [<- | []]. reflexivity.
Defined.
